(** * QuadCast 2 LED control: the USB loop of [quadcast2.py]

    A shallow embedding of [usb_loop] (quadcast2.py, lines 31-96) and of the
    two slider callbacks that feed it.  Python [int] is [Z], [str] is
    [string], a [bytearray] is a [list Z] whose cells hold values of
    [range(256)]; exceptions are results [Raise e]; the device and the
    loop's own variables are threaded through a state and exception monad.

    Python [float] arithmetic is reached through the interface [Float64],
    with two implementations: [Float64_binary64], the machine arithmetic
    on Rocq's primitive floats, which computes, and [Float64_R], the real
    numbers, which idealise it (no rounding, no NaN, no infinity).  What
    does not depend on the laws of the arithmetic is proved for every
    implementation of the interface; the analytic statements (period of
    the sine factor, floor of the clock, strict growth of the phase) are
    proved over [R]. *)

From Stdlib Require Import ZArith QArith Reals Lra Lia String Bool.
From Stdlib Require Import R_Ifp Zfloor Qreals Rtrigo1.
From Stdlib Require Import PrimFloat FloatOps SpecFloat Uint63.
From stdpp Require Import base list.

Local Open Scope string_scope.
Local Open Scope list_scope.
Local Open Scope Z_scope.

(** ** Exceptions and the result of a Python statement sequence *)

Inductive exn : Type :=
| USBError     (* usb.core.USBError *)
| ValueError     (* int(nan), a byte outside range(256) *)
| OverflowError  (* int(inf) *)
| IndexError     (* a bytearray index past the end *).

Inductive result (A : Type) : Type :=
| Ok (a : A)
| Raise (e : exn).
Arguments Ok {A} a.
Arguments Raise {A} e.

(** ** [bytearray] *)

Module Bytearray.

(** [bytearray(n)]: [n] zero bytes. *)
Definition make (n : nat) : list Z := replicate n 0.

(** [b[i] = v] for an index [i >= 0]: [IndexError] past the end,
    [ValueError] unless [v] is in [range(256)]. *)
Definition set (b : list Z) (i : nat) (v : Z) : result (list Z) :=
  if negb (i <? length b)%nat then Raise IndexError
  else if (0 <=? v) && (v <? 256) then Ok (<[i := v]> b)
  else Raise ValueError.

End Bytearray.

(** Sequencing of statements that may raise. *)
Definition rbind {A B} (r : result A) (k : A -> result B) : result B :=
  match r with
  | Ok a => k a
  | Raise e => Raise e
  end.

Notation "x <-? c ;; k" := (rbind c (fun x => k))
  (at level 100, c at next level, right associativity).

(** ** Frame encoder (lines 80-84 and 87-90) *)

(** [cmd = bytearray(64); cmd[0] = 0x81; cmd[1] = lower; cmd[4] = 0x81;
    cmd[5] = upper] *)
Definition brightness_cmd (lower upper : Z) : result (list Z) :=
  cmd <-? Bytearray.set (Bytearray.make 64) 0 0x81 ;;
  cmd <-? Bytearray.set cmd 1 lower ;;
  cmd <-? Bytearray.set cmd 4 0x81 ;;
  Bytearray.set cmd 5 upper.

(** [hb = bytearray(64); hb[0] = 0x04; hb[1] = max(lower, upper);
    hb[8] = 0x01] *)
Definition heartbeat_cmd (lower upper : Z) : result (list Z) :=
  hb <-? Bytearray.set (Bytearray.make 64) 0 0x04 ;;
  hb <-? Bytearray.set hb 1 (Z.max lower upper) ;;
  Bytearray.set hb 8 0x01.

(** ** The arithmetic of Python [float] and [np.float64]

    The loop touches floating point in four places: the literals [0.0] and
    [0.05], the promotion of an [int] operand in mixed arithmetic, the
    operators [+], [*], [/] with [np.sin], and the conversion [int(x)],
    which truncates toward zero and raises on NaN and infinities. *)

Class Float64 (F : Type) : Type := {
  f_lit : Q -> F;            (* a decimal literal *)
  f_of_int : Z -> F;         (* int operand of a mixed operation *)
  f_add : F -> F -> F;
  f_mul : F -> F -> F;
  f_div : F -> F -> F;
  np_sin : F -> F;
  py_int : F -> result Z     (* int(x) *)
}.

Declare Scope f64_scope.
Delimit Scope f64_scope with f64.
Infix "+" := f_add : f64_scope.
Infix "*" := f_mul : f64_scope.
Infix "/" := f_div : f64_scope.

(** ** Module-level state (lines 22-28) and the loop's local [last_effect] *)

Definition VENDOR_ID : Z := 0x03F0.
Definition PRODUCT_ID : Z := 0x09AF.
Definition INTERFACE : Z := 0.

(** The globals written by the GUI callbacks and read by the loop. *)
Record settings (F : Type) : Type := {
  led_enabled : bool;
  led_mode : string;      (* "bottom" | "top" | "both" *)
  led_effect : string;    (* "static" | "blink" | "wave" *)
  brightness_raw : Z;
  wave_speed : F
}.
Arguments led_enabled {F} _.
Arguments led_mode {F} _.
Arguments led_effect {F} _.
Arguments brightness_raw {F} _.
Arguments wave_speed {F} _.

(** The state the loop itself owns: the global [wave_phase] and the local
    [last_effect], [None] before the first iteration. *)
Record anim (F : Type) : Type := {
  wave_phase : F;
  last_effect : option string
}.
Arguments wave_phase {F} _.
Arguments last_effect {F} _.

(** ** GUI callbacks (lines 166-180) *)

(** [brightness_raw = int(value*242/100)] for a slider value; [/] is true
    division, the truncation is that of a non-negative quotient. *)
Definition change_brightness (value : Z) : Z := (value * 242) ÷ 100.

(** [wave_speed = value/10] *)
Definition change_wave {F} `{Float64 F} (value : Z) : F :=
  (f_of_int value / f_of_int 10)%f64.

(** ** Animation engine (lines 52-78) *)

Section Engine.
Context {F : Type} `{Float64 F}.

(** [led_effect != last_effect], where [last_effect] is [None] or a
    string: [None] differs from every string. *)
Definition effect_changed (effect : string) (last : option string) : bool :=
  match last with
  | None => true
  | Some e => negb (String.eqb effect e)
  end.

(** Lines 52-54. *)
Definition detect_transition (g : settings F) (a : anim F) : anim F :=
  if effect_changed (led_effect g) (last_effect a)
  then {| wave_phase := f_lit 0; last_effect := Some (led_effect g) |}
  else a.

(** Lines 56-67 inside [if led_enabled]: the pair [(lower, upper)] after
    the mode dispatch; both stay at their initial 0 when no branch of the
    [if]/[elif] chain fires. *)
Definition zone_base (g : settings F) : Z * Z :=
  if String.eqb (led_mode g) "bottom" then (brightness_raw g, 0)
  else if String.eqb (led_mode g) "top" then (0, brightness_raw g)
  else if String.eqb (led_mode g) "both" then (brightness_raw g, brightness_raw g)
  else (0, 0).

(** [(np.sin(wave_phase)+1)/2] *)
Definition wave_factor (phase : F) : F :=
  ((np_sin phase + f_of_int 1) / f_of_int 2)%f64.

(** [int(t*2)%2] *)
Definition blink_state (t : F) : result Z :=
  n <-? py_int (t * f_of_int 2)%f64 ;;
  Ok (n mod 2).

(** Lines 69-78: the effect applied to [(lower, upper)] at time [t].
    Returns the new [wave_phase] with the pair; the phase is written
    before the conversions that may raise. *)
Definition apply_effect (g : settings F) (t : F) (lu : Z * Z) (phase : F)
  : F * result (Z * Z) :=
  let '(lower, upper) := lu in
  if String.eqb (led_effect g) "blink" then
    (phase,
     state <-? blink_state t ;;
     Ok (lower * state, upper * state))
  else if String.eqb (led_effect g) "wave" then
    let phase' := (phase + f_lit 0.05 * wave_speed g)%f64 in
    let factor := wave_factor phase' in
    (phase',
     lower' <-? py_int (f_of_int lower * factor)%f64 ;;
     upper' <-? py_int (f_of_int upper * factor)%f64 ;;
     Ok (lower', upper'))
  else (phase, Ok (lower, upper)).

(** Lines 56-78 from the state left by the transition check. *)
Definition intensities (g : settings F) (t : F) (a : anim F)
  : anim F * result (Z * Z) :=
  if led_enabled g then
    let '(phase', r) := apply_effect g t (zone_base g) (wave_phase a) in
    ({| wave_phase := phase'; last_effect := last_effect a |}, r)
  else (a, Ok (0, 0)).

(** Lines 52-78: one evaluation of the engine at wall-clock time [t]. *)
Definition compute (g : settings F) (t : F) (a : anim F)
  : anim F * result (Z * Z) :=
  intensities g t (detect_transition g a).

End Engine.

(** ** The USB device as the loop sees it

    pyusb is outside the repository: the device is a record holding whether
    the interface is claimed, the outcomes of the USB calls still to come
    ([true]: the call returns, [false]: it raises [usb.core.USBError]; when
    the list is exhausted calls succeed) and the calls observed so far. *)

Inductive event : Type :=
| Claim (ok : bool)
| CtrlTransfer (bmRequestType bRequest wValue wIndex : Z) (data : list Z) (ok : bool)
| Release (ok : bool)
| Sleep (secs : Q).

Record device : Type := {
  claimed : bool;
  script : list bool;
  trace : list event
}.

Definition next_outcome (d : device) : bool * list bool :=
  match script d with
  | [] => (true, [])
  | ok :: rest => (ok, rest)
  end.

(** The one control transfer the loop issues: [bmRequestType = 0x21],
    [bRequest = 0x09], [wValue = 0x0300], [wIndex = INTERFACE]. *)
Definition transfer (data : list Z) (ok : bool) : event :=
  CtrlTransfer 0x21 0x09 0x0300 INTERFACE data ok.

(** Whether the [i]-th USB call from now returns. *)
Definition outcome (d : device) (i : nat) : bool := nth i (script d) true.

Definition status (ok : bool) : result unit :=
  if ok then Ok tt else Raise USBError.

(** [usb.util.claim_interface(dev, INTERFACE)] *)
Definition claim_interface (d : device) : result unit * device :=
  let '(ok, rest) := next_outcome d in
  (status ok,
   {| claimed := if ok then true else claimed d;
      script := rest;
      trace := trace d ++ [Claim ok] |}).

(** [dev.ctrl_transfer(0x21, 0x09, 0x0300, INTERFACE, data)] *)
Definition ctrl_transfer (data : list Z) (d : device) : result unit * device :=
  let '(ok, rest) := next_outcome d in
  (status ok,
   {| claimed := claimed d;
      script := rest;
      trace := trace d ++ [transfer data ok] |}).

(** [usb.util.release_interface(dev, INTERFACE)] *)
Definition release_interface (d : device) : result unit * device :=
  let '(ok, rest) := next_outcome d in
  (status ok,
   {| claimed := if ok then false else claimed d;
      script := rest;
      trace := trace d ++ [Release ok] |}).

(** [time.sleep(secs)] *)
Definition sleep (secs : Q) (d : device) : result unit * device :=
  (Ok tt,
   {| claimed := claimed d; script := script d;
      trace := trace d ++ [Sleep secs] |}).

(** ** The control loop (lines 46-96) *)

Section Loop.
Context {F : Type} `{Float64 F}.

(** What an iteration reads and writes: the engine's state and the
    device. *)
Record world : Type := {
  st : anim F;
  dev : device
}.

(** Statements of the loop body: they may raise, and keep whatever they
    wrote before raising. *)
Definition M (A : Type) : Type := world -> result A * world.

Definition ret {A} (a : A) : M A := fun w => (Ok a, w).

Definition bind {A B} (c : M A) (k : A -> M B) : M B :=
  fun w =>
    match c w with
    | (Ok a, w') => k a w'
    | (Raise e, w') => (Raise e, w')
    end.

(** [try: body except usb.core.USBError: handler]; any other exception
    leaves the [try]. *)
Definition try_except_USBError (body handler : M unit) : M unit :=
  fun w =>
    match body w with
    | (Raise USBError, w') => handler w'
    | other => other
    end.

Definition on_device {A} (op : device -> result A * device) : M A :=
  fun w => let '(r, d) := op (dev w) in (r, {| st := st w; dev := d |}).

Definition on_anim {A} (op : anim F -> anim F * result A) : M A :=
  fun w => let '(a, r) := op (st w) in (r, {| st := a; dev := dev w |}).

Definition lift {A} (r : result A) : M A := fun w => (r, w).

End Loop.
Arguments world F : clear implicits.
Arguments M F A : clear implicits.

Notation "x <- c ;; k" := (bind c (fun x => k))
  (at level 100, c at next level, right associativity).
Notation "c ;; k" := (bind c (fun _ => k))
  (at level 100, right associativity).

Section Body.
Context {F : Type} `{Float64 F}.

(** One iteration of [while running], with the settings [g] in force and
    [time.time()] returning [now]. *)
Definition usb_loop_body (g : settings F) (now : F) : M F unit :=
  try_except_USBError
    (on_device claim_interface ;;
     lu <- on_anim (compute g now) ;;
     let '(lower, upper) := lu in
     cmd <- lift (brightness_cmd lower upper) ;;
     on_device (ctrl_transfer cmd) ;;
     hb <- lift (heartbeat_cmd lower upper) ;;
     on_device (ctrl_transfer hb) ;;
     on_device release_interface ;;
     on_device (sleep 0.05))
    (on_device (sleep 0.5)).

(** [while running: ...] (lines 46-96): one element of [ticks] per
    iteration that found [running] true, with the settings and the clock
    it saw; [running] is false after the last one.  An exception other
    than [USBError] ends the loop. *)
Fixpoint while_running (ticks : list (settings F * F)) : M F unit :=
  match ticks with
  | [] => ret tt
  | (g, now) :: rest => usb_loop_body g now ;; while_running rest
  end.

(** [usb_loop()]: when [usb.core.find] returns [None] the function prints
    and returns; otherwise it enters the loop with [last_effect = None]
    and the module's [wave_phase = 0.0].  The best-effort detach of the
    kernel driver (lines 38-42) ignores its own errors and touches nothing
    the loop reads; it is left out. *)
Definition usb_loop (found : bool) (ticks : list (settings F * F)) (d : device)
  : result unit * world F :=
  let w := {| st := {| wave_phase := f_lit 0; last_effect := None |};
              dev := d |} in
  if found then while_running ticks w else (Ok tt, w).

End Body.

(** ** The idealised arithmetic: real numbers

    [int(x)] truncates toward zero: the floor of a non-negative real, the
    ceiling of a negative one.  No operation raises. *)

Definition Rtrunc (x : R) : Z :=
  if Rle_dec 0 x then Zfloor x else Zceil x.

#[export] Instance Float64_R : Float64 R := {|
  f_lit := Q2R;
  f_of_int := IZR;
  f_add := Rplus;
  f_mul := Rmult;
  f_div := Rdiv;
  np_sin := sin;
  py_int := fun x => Ok (Rtrunc x)
|}.

(** ** The machine arithmetic: binary64

    Rocq's primitive floats are IEEE 754 binary64, as Python's [float] and
    [np.float64].  [np.sin] belongs to NumPy and is a parameter.  A literal
    is the correctly rounded quotient of its numerator and denominator; an
    [int] operand is converted exactly up to 2^53 in magnitude, which covers
    every integer the loop handles. *)

Definition float_of_int (n : Z) : float :=
  if (n <? 0)%Z then PrimFloat.opp (PrimFloat.of_uint63 (Uint63.of_Z (- n)))
  else PrimFloat.of_uint63 (Uint63.of_Z n).

Definition float_lit (q : Q) : float :=
  PrimFloat.div (float_of_int (Qnum q)) (float_of_int (Zpos (Qden q))).

(** [int(x)]: the integer part of a finite [x]; [ValueError] for a NaN,
    [OverflowError] for an infinity. *)
Definition float_int (x : float) : result Z :=
  match Prim2SF x with
  | S754_zero _ => Ok 0%Z
  | S754_finite sign m e =>
      let magnitude :=
        if (0 <=? e)%Z then (Zpos m * 2 ^ e)%Z else (Zpos m / 2 ^ (- e))%Z in
      Ok (if sign then (- magnitude)%Z else magnitude)
  | S754_infinity _ => Raise OverflowError
  | S754_nan => Raise ValueError
  end.

Definition Float64_binary64 (npsin : float -> float) : Float64 float := {|
  f_lit := float_lit;
  f_of_int := float_of_int;
  f_add := PrimFloat.add;
  f_mul := PrimFloat.mul;
  f_div := PrimFloat.div;
  np_sin := npsin;
  py_int := float_int
|}.

(** ** The settings as the GUI writes them (lines 22-27 and 126-185) *)

(** The module's initial values (lines 23-27). *)
Definition initial_settings {F : Type} `{Float64 F} : settings F :=
  {| led_enabled := true; led_mode := "bottom"; led_effect := "static";
     brightness_raw := 24; wave_speed := f_lit 1 |}.

(** The callbacks of [QuadCastApp] (lines 166-185), as writes to the
    globals. *)
Module QuadCastApp.

Definition change_brightness {F : Type} (value : Z) (g : settings F) : settings F :=
  {| led_enabled := led_enabled g; led_mode := led_mode g;
     led_effect := led_effect g;
     brightness_raw := change_brightness value;
     wave_speed := wave_speed g |}.

Definition change_mode {F : Type} (value : string) (g : settings F) : settings F :=
  {| led_enabled := led_enabled g; led_mode := value;
     led_effect := led_effect g; brightness_raw := brightness_raw g;
     wave_speed := wave_speed g |}.

Definition change_effect {F : Type} (value : string) (g : settings F) : settings F :=
  {| led_enabled := led_enabled g; led_mode := led_mode g;
     led_effect := value; brightness_raw := brightness_raw g;
     wave_speed := wave_speed g |}.

Definition change_wave {F : Type} `{Float64 F} (value : Z) (g : settings F) : settings F :=
  {| led_enabled := led_enabled g; led_mode := led_mode g;
     led_effect := led_effect g; brightness_raw := brightness_raw g;
     wave_speed := change_wave value |}.

(** [toggle_led]: the new flag, with the text set on the button. *)
Definition toggle_led {F : Type} (checked : bool) (g : settings F)
  : settings F * string :=
  ({| led_enabled := checked; led_mode := led_mode g;
      led_effect := led_effect g; brightness_raw := brightness_raw g;
      wave_speed := wave_speed g |},
   if checked then "LED ON" else "LED OFF").

End QuadCastApp.

(** The signals connected in [init_ui] (lines 131, 138, 145, 153, 160). *)
Inductive signal : Type :=
| BrightnessValueChanged (value : Z)
| ModeTextChanged (text : string)
| EffectTextChanged (text : string)
| WaveValueChanged (value : Z)
| ToggleClicked (checked : bool).

(** What the widgets can emit: a slider a value of its range (lines 129
    and 151), a combo box one of its items (lines 137 and 144). *)
Definition emitted (s : signal) : bool :=
  match s with
  | BrightnessValueChanged value => (0 <=? value) && (value <=? 100)
  | ModeTextChanged text =>
      String.eqb text "bottom" || String.eqb text "top" || String.eqb text "both"
  | EffectTextChanged text =>
      String.eqb text "static" || String.eqb text "blink" || String.eqb text "wave"
  | WaveValueChanged value => (1 <=? value) && (value <=? 50)
  | ToggleClicked _ => true
  end.

(** The slot a signal is connected to. *)
Definition deliver {F : Type} `{Float64 F} (g : settings F) (s : signal) : settings F :=
  match s with
  | BrightnessValueChanged value => QuadCastApp.change_brightness value g
  | ModeTextChanged text => QuadCastApp.change_mode text g
  | EffectTextChanged text => QuadCastApp.change_effect text g
  | WaveValueChanged value => QuadCastApp.change_wave value g
  | ToggleClicked checked => fst (QuadCastApp.toggle_led checked g)
  end.

(** ** Before the loop (lines 33-44) *)

(** The host side of the device: whether a kernel driver holds the
    interface, the two driver calls made so far, and what was printed. *)
Inductive driver_call : Type :=
| IsKernelDriverActive (ok : bool)
| DetachKernelDriver (ok : bool).

Record host : Type := {
  kernel_driver : bool;
  driver_calls : list driver_call;
  stdout : list string
}.

(** Lines 38-42: [try: if dev.is_kernel_driver_active(INTERFACE):
    dev.detach_kernel_driver(INTERFACE) except usb.core.USBError: pass].
    Both calls take their outcome from the device's script, like the
    calls of the loop. *)
Definition detach_if_active (h : host) (d : device) : host * device :=
  let '(ok, rest) := next_outcome d in
  let d1 := {| claimed := claimed d; script := rest; trace := trace d |} in
  let h1 := {| kernel_driver := kernel_driver h;
               driver_calls := driver_calls h ++ [IsKernelDriverActive ok];
               stdout := stdout h |} in
  if ok && kernel_driver h then
    let '(ok', rest') := next_outcome d1 in
    ({| kernel_driver := if ok' then false else kernel_driver h;
        driver_calls := driver_calls h1 ++ [DetachKernelDriver ok'];
        stdout := stdout h |},
     {| claimed := claimed d; script := rest'; trace := trace d |})
  else (h1, d1).

(** [usb_loop()] with its first lines: [found] is whether
    [usb.core.find] returned a device. *)
Definition usb_loop_from_start {F : Type} `{Float64 F}
    (found : bool) (h : host) (ticks : list (settings F * F)) (d : device)
  : host * (result unit * world F) :=
  if found then
    let '(h', d') := detach_if_active h d in (h', usb_loop true ticks d')
  else
    ({| kernel_driver := kernel_driver h; driver_calls := driver_calls h;
        stdout := stdout h ++ ["QuadCast 2 not found."] |},
     usb_loop false ticks d).

(** ** Reading a trace *)

Definition is_sleep (e : event) : bool :=
  match e with
  | Sleep _ => true
  | _ => false
  end.

Definition is_usb_call (e : event) : bool := negb (is_sleep e).

(** The events an iteration added to the trace. *)
Definition events_since (before after : device) : list event :=
  drop (length (trace before)) (trace after).

(** ** Ranges and counts used in the statements *)

(** A value a [bytearray] cell accepts. *)
Definition fits_byte (v : Z) : bool := (0 <=? v) && (v <? 256).

(** An iteration whose brightness a cell accepts. *)
Definition byte_brightness {F : Type} (tick : settings F * F) : Prop :=
  0 <= brightness_raw (fst tick) < 256.

(** A claim that returned. *)
Definition is_claim_ok (e : event) : bool :=
  match e with
  | Claim true => true
  | _ => false
  end.

(** How many claims returned among the events. *)
Definition claims_returned (new : list event) : Z :=
  Z.of_nat (length (List.filter is_claim_ok new)).

(** The items of the two combo boxes (lines 137 and 144). *)
Definition known_mode (mode : string) : Prop :=
  mode = "bottom" \/ mode = "top" \/ mode = "both".

Definition known_effect (effect : string) : Prop :=
  effect = "static" \/ effect = "blink" \/ effect = "wave".

(** What the brightness slider and the combo boxes can write. *)
Definition in_ui_range {F : Type} (g : settings F) : Prop :=
  0 <= brightness_raw g <= 242
  /\ known_mode (led_mode g) /\ known_effect (led_effect g).

(** What the wave slider can write, over the reals. *)
Definition speed_in_range (g : settings R) : Prop :=
  (1 / 10 <= wave_speed g <= 5)%R.

(** ** The wire payloads as the specification words them

    Section 4.2: byte 0 = 0x81, byte 1 = lower, byte 4 = 0x81,
    byte 5 = upper, remaining bytes zero; and byte 0 = 0x04,
    byte 1 = the level, byte 8 = 0x01, remaining bytes zero.  These two
    follow the specification, to be compared with what [brightness_cmd] and
    [heartbeat_cmd] build. *)

Definition spec_brightness_frame (lower upper : Z) : list Z :=
  [0x81; lower; 0; 0; 0x81; upper] ++ replicate 58 0.

Definition spec_heartbeat_frame (level : Z) : list Z :=
  [0x04; level; 0; 0; 0; 0; 0; 0; 0x01] ++ replicate 55 0.

(** * Properties *)

(** ** Frame encoder *)

Lemma set_in_range (b : list Z) (i : nat) (v : Z) :
  0 <= v < 256 -> (i < length b)%nat ->
  Bytearray.set b i v = Ok (<[i := v]> b).
Proof.
  intros [Hlo Hhi] Hi. unfold Bytearray.set.
  apply Z.leb_le in Hlo. apply Z.ltb_lt in Hhi. apply Nat.ltb_lt in Hi.
  now rewrite Hi, Hlo, Hhi.
Qed.

Lemma brightness_cmd_bytes (lower upper : Z) :
  0 <= lower < 256 -> 0 <= upper < 256 ->
  brightness_cmd lower upper = Ok (spec_brightness_frame lower upper).
Proof.
  intros Hl Hu. unfold brightness_cmd, Bytearray.make.
  rewrite set_in_range by (cbn; lia). cbn [rbind].
  rewrite set_in_range by (cbn; lia). cbn [rbind].
  rewrite set_in_range by (cbn; lia). cbn [rbind].
  rewrite set_in_range by (cbn; lia). reflexivity.
Qed.

Lemma heartbeat_cmd_bytes (lower upper : Z) :
  0 <= lower < 256 -> 0 <= upper < 256 ->
  heartbeat_cmd lower upper = Ok (spec_heartbeat_frame (Z.max lower upper)).
Proof.
  intros Hl Hu. unfold heartbeat_cmd, Bytearray.make.
  rewrite set_in_range by (cbn; lia). cbn [rbind].
  rewrite set_in_range by (cbn; lia). cbn [rbind].
  rewrite set_in_range by (cbn; lia). reflexivity.
Qed.

(** C2: for every pair (lower, upper) with both components in [0,242] the
    encoder yields two buffers of 64 bytes: the brightness command holds
    0x81 at offset 0, [lower] at 1, 0x81 at 4, [upper] at 5 and zero
    elsewhere; the heartbeat command holds 0x04 at offset 0,
    [max lower upper] at 1, 0x01 at 8 and zero elsewhere.  For (120, 200)
    these are the byte vectors [0x81,120,0,0,0x81,200,0,...] and
    [0x04,200,0,0,0,0,0,0,0x01,0,...]. *)
Theorem encoder_frames (lower upper : Z) :
  0 <= lower <= 242 -> 0 <= upper <= 242 ->
  brightness_cmd lower upper = Ok (spec_brightness_frame lower upper)
  /\ heartbeat_cmd lower upper = Ok (spec_heartbeat_frame (Z.max lower upper))
  /\ length (spec_brightness_frame lower upper) = 64%nat
  /\ length (spec_heartbeat_frame (Z.max lower upper)) = 64%nat
  /\ brightness_cmd 120 200
     = Ok [129; 120; 0; 0; 129; 200; 0; 0; 0; 0; 0; 0; 0; 0; 0; 0;
           0; 0; 0; 0; 0; 0; 0; 0; 0; 0; 0; 0; 0; 0; 0; 0;
           0; 0; 0; 0; 0; 0; 0; 0; 0; 0; 0; 0; 0; 0; 0; 0;
           0; 0; 0; 0; 0; 0; 0; 0; 0; 0; 0; 0; 0; 0; 0; 0]
  /\ heartbeat_cmd 120 200
     = Ok [4; 200; 0; 0; 0; 0; 0; 0; 1; 0; 0; 0; 0; 0; 0; 0;
           0; 0; 0; 0; 0; 0; 0; 0; 0; 0; 0; 0; 0; 0; 0; 0;
           0; 0; 0; 0; 0; 0; 0; 0; 0; 0; 0; 0; 0; 0; 0; 0;
           0; 0; 0; 0; 0; 0; 0; 0; 0; 0; 0; 0; 0; 0; 0; 0].
Proof.
  intros Hl Hu. repeat split.
  - apply brightness_cmd_bytes; lia.
  - apply heartbeat_cmd_bytes; lia.
Qed.

Lemma encoder_frames_witness :
  brightness_cmd 0 242 = Ok (spec_brightness_frame 0 242)
  /\ heartbeat_cmd 0 242 = Ok (spec_heartbeat_frame 242).
Proof.
  destruct (encoder_frames 0 242) as (Hb & Hh & _); [lia | lia |].
  split; [exact Hb | exact Hh].
Defined.

(** ** Sliders *)

(** The brightness slider ranges over 0..100, the brightness the loop
    reads over 0..242. *)
Lemma change_brightness_range (value : Z) :
  0 <= value <= 100 -> 0 <= change_brightness value <= 242.
Proof.
  intros Hv. unfold change_brightness.
  rewrite Z.quot_div_nonneg by lia.
  split; [apply Z.div_pos; lia|].
  apply Z.div_le_upper_bound; lia.
Qed.

Example change_brightness_50 : change_brightness 50 = 121.
Proof. reflexivity. Qed.

(** ** Animation engine, for every arithmetic *)

Section EngineFacts.
Context {F : Type} `{Float64 F}.

Lemma effect_changed_false (effect : string) (last : option string) :
  effect_changed effect last = false <-> last = Some effect.
Proof.
  destruct last as [e|]; cbn; [|split; discriminate].
  rewrite negb_false_iff, String.eqb_eq. split; congruence.
Qed.

Lemma effect_changed_true (effect : string) (last : option string) :
  effect_changed effect last = true <-> last <> Some effect.
Proof.
  rewrite <- effect_changed_false.
  destruct (effect_changed effect last); split; congruence.
Qed.

(** Whatever happened before, the transition check leaves the observed
    effect in [last_effect]. *)
Lemma detect_transition_last (g : settings F) (a : anim F) :
  last_effect (detect_transition g a) = Some (led_effect g).
Proof.
  unfold detect_transition.
  destruct (effect_changed _ _) eqn:E; [reflexivity|].
  now apply effect_changed_false.
Qed.

(** The rest of the iteration never writes [last_effect]. *)
Lemma intensities_last (g : settings F) (t : F) (a : anim F) :
  last_effect (fst (intensities g t a)) = last_effect a.
Proof.
  unfold intensities. destruct (led_enabled g); [|reflexivity].
  now destruct (apply_effect _ _ _ _).
Qed.

Lemma compute_last (g : settings F) (t : F) (a : anim F) :
  last_effect (fst (compute g t a)) = Some (led_effect g).
Proof.
  unfold compute. now rewrite intensities_last, detect_transition_last.
Qed.

(** The phase is written by the wave branch only. *)
Lemma intensities_phase_other (g : settings F) (t : F) (a : anim F) :
  led_enabled g = false \/ led_effect g <> "wave" ->
  wave_phase (fst (intensities g t a)) = wave_phase a.
Proof.
  intros Hg. unfold intensities.
  destruct (led_enabled g); [|reflexivity].
  destruct Hg as [Hg|Hg]; [discriminate|].
  unfold apply_effect. destruct (zone_base g) as [lower upper].
  destruct (String.eqb (led_effect g) "blink"); [reflexivity|].
  destruct (String.eqb_spec (led_effect g) "wave"); [contradiction|reflexivity].
Qed.

(** The three branches of lines 69-78, in the arithmetic at hand. *)
Lemma intensities_static (g : settings F) (t : F) (a : anim F) :
  led_enabled g = true ->
  led_effect g <> "blink" -> led_effect g <> "wave" ->
  intensities g t a = (a, Ok (zone_base g)).
Proof.
  intros Hon Hb Hw. unfold intensities, apply_effect. rewrite Hon.
  apply String.eqb_neq in Hb, Hw. rewrite Hb, Hw.
  destruct (zone_base g), a. reflexivity.
Qed.

Lemma intensities_blink (g : settings F) (t : F) (a : anim F) :
  led_enabled g = true -> led_effect g = "blink" ->
  intensities g t a
  = (a, state <-? blink_state t ;;
        Ok (fst (zone_base g) * state, snd (zone_base g) * state)).
Proof.
  intros Hon Hb. unfold intensities, apply_effect. rewrite Hon, Hb.
  destruct (zone_base g), a. reflexivity.
Qed.

Lemma intensities_wave (g : settings F) (t : F) (a : anim F) :
  led_enabled g = true -> led_effect g = "wave" ->
  intensities g t a
  = ({| wave_phase := (wave_phase a + f_lit 0.05 * wave_speed g)%f64;
        last_effect := last_effect a |},
     lower' <-? py_int (f_of_int (fst (zone_base g))
                        * wave_factor (wave_phase a + f_lit 0.05 * wave_speed g))%f64 ;;
     upper' <-? py_int (f_of_int (snd (zone_base g))
                        * wave_factor (wave_phase a + f_lit 0.05 * wave_speed g))%f64 ;;
     Ok (lower', upper')).
Proof.
  intros Hon Hw. unfold intensities, apply_effect. rewrite Hon, Hw.
  now destruct (zone_base g).
Qed.

(** [int(t*2) % 2] is 0 or 1 whenever the conversion returns. *)
Lemma blink_state_bit (t : F) (s : Z) :
  blink_state t = Ok s -> s = 0 \/ s = 1.
Proof.
  unfold blink_state. destruct (py_int _) as [n|e]; cbn; [|discriminate].
  intros [= <-]. pose proof (Z.mod_pos_bound n 2). lia.
Qed.

(** An unknown mode leaves both intensities at 0. *)
Lemma zone_base_unknown (g : settings F) :
  led_mode g <> "bottom" -> led_mode g <> "top" -> led_mode g <> "both" ->
  zone_base g = (0, 0).
Proof.
  intros Hb Ht Hboth. unfold zone_base.
  apply String.eqb_neq in Hb, Ht, Hboth. now rewrite Hb, Ht, Hboth.
Qed.

End EngineFacts.

(** C3: with [enabled = false] the engine returns (0, 0), for every zone
    mode, effect, brightness, wave speed, clock value and engine state
    (phase and last effect); the only thing it does to the state is the
    transition check. *)
Theorem disabled_is_dark {F : Type} `{Float64 F}
    (mode effect : string) (brightness : Z) (speed t : F) (a : anim F) :
  let g := {| led_enabled := false; led_mode := mode;
              led_effect := effect; brightness_raw := brightness;
              wave_speed := speed |} in
  snd (compute g t a) = Ok (0, 0)
  /\ fst (compute g t a) = detect_transition g a.
Proof.
  intros g. unfold compute, intensities.
  cbn [led_enabled g fst snd]. split; reflexivity.
Qed.

(** C4: with [enabled = true] and the static effect the engine returns
    (b, 0) for mode "bottom", (0, b) for "top" and (b, b) for "both", for
    every brightness b (in particular every b of [0,242]). *)
Theorem static_zone_table {F : Type} `{Float64 F}
    (b : Z) (speed t : F) (a : anim F) :
  let g mode := {| led_enabled := true; led_mode := mode;
                   led_effect := "static"; brightness_raw := b;
                   wave_speed := speed |} in
  snd (compute (g "bottom") t a) = Ok (b, 0)
  /\ snd (compute (g "top") t a) = Ok (0, b)
  /\ snd (compute (g "both") t a) = Ok (b, b).
Proof. cbv zeta. repeat split. Qed.

(** C7: when the observed effect differs from the stored [last_effect]
    (which is [None] before the first iteration), the engine first sets
    the phase to 0.0 and [last_effect] to the observed effect, and
    computes the rest of the iteration from that state, whether the LEDs
    are enabled or not.  This holds for every transition: after
    wave, blink, wave in three consecutive iterations the second and the
    third both reset. *)
Theorem effect_transition_resets {F : Type} `{Float64 F}
    (g : settings F) (t : F) (a : anim F) :
  last_effect a <> Some (led_effect g) ->
  let fresh := {| wave_phase := f_lit 0; last_effect := Some (led_effect g) |} in
  detect_transition g a = fresh
  /\ compute g t a = intensities g t fresh
  /\ last_effect (fst (compute g t a)) = Some (led_effect g)
  /\ (led_enabled g = false -> compute g t a = (fresh, Ok (0, 0)))
  /\ (led_effect g <> "wave" -> wave_phase (fst (compute g t a)) = f_lit 0)
  /\ (forall (g1 g2 g3 : settings F) (t1 t2 : F) (a0 : anim F),
        led_effect g1 = "wave" -> led_effect g2 = "blink" ->
        led_effect g3 = "wave" ->
        let a1 := fst (compute g1 t1 a0) in
        let a2 := fst (compute g2 t2 a1) in
        detect_transition g2 a1
        = {| wave_phase := f_lit 0; last_effect := Some "blink" |}
        /\ detect_transition g3 a2
           = {| wave_phase := f_lit 0; last_effect := Some "wave" |}).
Proof.
  intros Hne fresh.
  assert (Hd : detect_transition g a = fresh).
  { unfold detect_transition.
    now rewrite (proj2 (effect_changed_true _ _) Hne). }
  split; [exact Hd|split; [|split; [|split; [|split]]]].
  - unfold compute. now rewrite Hd.
  - apply compute_last.
  - intros Hoff. unfold compute, intensities. now rewrite Hd, Hoff.
  - intros Hw. unfold compute. rewrite Hd.
    rewrite intensities_phase_other by now right. reflexivity.
  - intros g1 g2 g3 t1 t2 a0 E1 E2 E3 a1 a2. subst a1 a2.
    unfold detect_transition. rewrite !compute_last, E1, E2, E3.
    split; reflexivity.
Qed.

Lemma effect_transition_resets_witness :
  let g := {| led_enabled := false; led_mode := "top"; led_effect := "blink";
              brightness_raw := 24; wave_speed := 1%R |} in
  let a := {| wave_phase := 3%R; last_effect := Some "wave" |} in
  last_effect a <> Some (led_effect g)
  /\ compute g 0%R a
     = ({| wave_phase := f_lit 0; last_effect := Some "blink" |}, Ok (0, 0)).
Proof.
  intros g a.
  assert (Hne : last_effect a <> Some (led_effect g)) by (cbn; discriminate).
  split; [exact Hne|].
  destruct (effect_transition_resets g 0%R a Hne) as (_ & _ & _ & Hoff & _).
  exact (Hoff eq_refl).
Defined.

(** ** The control loop, for every arithmetic *)

Section LoopFacts.
Context {F : Type} `{Float64 F}.

Ltac run_body :=
  unfold usb_loop_body, try_except_USBError, bind, on_device, on_anim, lift,
    claim_interface, ctrl_transfer, release_interface, sleep, next_outcome,
    status; cbn [st dev claimed script trace].

(** An iteration in which the four USB calls return. *)
Lemma body_completes (g : settings F) (now : F) (w : world F) (lower upper : Z) :
  snd (compute g now (st w)) = Ok (lower, upper) ->
  0 <= lower < 256 -> 0 <= upper < 256 ->
  outcome (dev w) 0 = true -> outcome (dev w) 1 = true ->
  outcome (dev w) 2 = true -> outcome (dev w) 3 = true ->
  usb_loop_body g now w
  = (Ok tt,
     {| st := fst (compute g now (st w));
        dev := {| claimed := false;
                  script := drop 4 (script (dev w));
                  trace := trace (dev w)
                           ++ [Claim true;
                               transfer (spec_brightness_frame lower upper) true;
                               transfer (spec_heartbeat_frame (Z.max lower upper)) true;
                               Release true;
                               Sleep 0.05] |} |}).
Proof.
  intros Hc Hl Hu H0 H1 H2 H3.
  destruct w as [a [c s tr]]. unfold outcome in *. cbn [st dev script trace] in *.
  destruct (compute g now a) as [a' r] eqn:E. cbn [fst snd] in *. subst r.
  destruct s as [|o0 [|o1 [|o2 [|o3 s]]]]; cbn [nth] in *; subst;
    run_body; rewrite E;
    rewrite (brightness_cmd_bytes lower upper Hl Hu);
    rewrite (heartbeat_cmd_bytes lower upper Hl Hu);
    cbn [st dev claimed script trace drop];
    rewrite <- !app_assoc; reflexivity.
Qed.

(** An iteration whose claim returns and whose first or second transfer
    raises [USBError]: the handler sleeps, nothing releases. *)
Lemma body_transfer_fails (g : settings F) (now : F) (w : world F) (lower upper : Z) :
  snd (compute g now (st w)) = Ok (lower, upper) ->
  0 <= lower < 256 -> 0 <= upper < 256 ->
  outcome (dev w) 0 = true ->
  (outcome (dev w) 1 = false ->
   usb_loop_body g now w
   = (Ok tt,
      {| st := fst (compute g now (st w));
         dev := {| claimed := true;
                   script := drop 2 (script (dev w));
                   trace := trace (dev w)
                            ++ [Claim true;
                                transfer (spec_brightness_frame lower upper) false;
                                Sleep 0.5] |} |}))
  /\ (outcome (dev w) 1 = true -> outcome (dev w) 2 = false ->
      usb_loop_body g now w
      = (Ok tt,
         {| st := fst (compute g now (st w));
            dev := {| claimed := true;
                      script := drop 3 (script (dev w));
                      trace := trace (dev w)
                               ++ [Claim true;
                                   transfer (spec_brightness_frame lower upper) true;
                                   transfer (spec_heartbeat_frame (Z.max lower upper)) false;
                                   Sleep 0.5] |} |})).
Proof.
  intros Hc Hl Hu H0.
  destruct w as [a [c s tr]]. unfold outcome in *. cbn [st dev script trace] in *.
  destruct (compute g now a) as [a' r] eqn:E. cbn [fst snd] in *. subst r.
  split.
  - intros H1.
    destruct s as [|o0 [|o1 s]]; cbn [nth] in *; try discriminate; subst;
      run_body; rewrite E;
      rewrite (brightness_cmd_bytes lower upper Hl Hu);
      cbn [st dev claimed script trace drop];
      rewrite <- !app_assoc; reflexivity.
  - intros H1 H2.
    destruct s as [|o0 [|o1 [|o2 s]]]; cbn [nth] in *; try discriminate; subst;
      run_body; rewrite E;
      rewrite (brightness_cmd_bytes lower upper Hl Hu);
      rewrite (heartbeat_cmd_bytes lower upper Hl Hu);
      cbn [st dev claimed script trace drop];
      rewrite <- !app_assoc; reflexivity.
Qed.

(** An iteration whose claim raises: the engine does not run. *)
Lemma body_claim_fails (g : settings F) (now : F) (w : world F) :
  outcome (dev w) 0 = false ->
  usb_loop_body g now w
  = (Ok tt,
     {| st := st w;
        dev := {| claimed := claimed (dev w);
                  script := drop 1 (script (dev w));
                  trace := trace (dev w) ++ [Claim false; Sleep 0.5] |} |}).
Proof.
  intros H0.
  destruct w as [a [c s tr]]. unfold outcome in *. cbn [st dev script trace] in *.
  destruct s as [|o0 s]; cbn [nth] in *; try discriminate; subst.
  run_body. cbn [drop]. rewrite <- !app_assoc. reflexivity.
Qed.

(** An iteration whose release raises: the handler sleeps as well. *)
Lemma body_release_fails (g : settings F) (now : F) (w : world F) (lower upper : Z) :
  snd (compute g now (st w)) = Ok (lower, upper) ->
  0 <= lower < 256 -> 0 <= upper < 256 ->
  outcome (dev w) 0 = true -> outcome (dev w) 1 = true ->
  outcome (dev w) 2 = true -> outcome (dev w) 3 = false ->
  usb_loop_body g now w
  = (Ok tt,
     {| st := fst (compute g now (st w));
        dev := {| claimed := true;
                  script := drop 4 (script (dev w));
                  trace := trace (dev w)
                           ++ [Claim true;
                               transfer (spec_brightness_frame lower upper) true;
                               transfer (spec_heartbeat_frame (Z.max lower upper)) true;
                               Release false;
                               Sleep 0.5] |} |}).
Proof.
  intros Hc Hl Hu H0 H1 H2 H3.
  destruct w as [a [c s tr]]. unfold outcome in *. cbn [st dev script trace] in *.
  destruct (compute g now a) as [a' r] eqn:E. cbn [fst snd] in *. subst r.
  destruct s as [|o0 [|o1 [|o2 [|o3 s]]]]; cbn [nth] in *; try discriminate; subst;
    run_body; rewrite E;
    rewrite (brightness_cmd_bytes lower upper Hl Hu);
    rewrite (heartbeat_cmd_bytes lower upper Hl Hu);
    cbn [st dev claimed script trace drop];
    rewrite <- !app_assoc; reflexivity.
Qed.

(** [USBError] never leaves an iteration. *)
Lemma body_catches_USBError (g : settings F) (now : F) (w : world F) :
  fst (usb_loop_body g now w) <> Raise USBError.
Proof.
  unfold usb_loop_body, try_except_USBError.
  match goal with |- context [match ?b w with _ => _ end] => destruct (b w) as [[u|[]] w'] end;
    cbn; discriminate.
Qed.

(** With intensities that fit a byte an iteration ends normally, whatever
    the device does. *)
Lemma body_returns (g : settings F) (now : F) (w : world F) (lower upper : Z) :
  snd (compute g now (st w)) = Ok (lower, upper) ->
  0 <= lower < 256 -> 0 <= upper < 256 ->
  fst (usb_loop_body g now w) = Ok tt.
Proof.
  intros Hc Hl Hu.
  destruct (outcome (dev w) 0) eqn:H0;
    [|now rewrite body_claim_fails].
  destruct (body_transfer_fails g now w lower upper Hc Hl Hu H0) as [B1 B2].
  destruct (outcome (dev w) 1) eqn:H1; [|now rewrite B1].
  destruct (outcome (dev w) 2) eqn:H2; [|now rewrite B2].
  destruct (outcome (dev w) 3) eqn:H3.
  - now rewrite (body_completes g now w lower upper).
  - now rewrite (body_release_fails g now w lower upper).
Qed.

Lemma while_running_cons (g : settings F) (now : F)
    (rest : list (settings F * F)) (w : world F) :
  while_running ((g, now) :: rest) w
  = match usb_loop_body g now w with
    | (Ok _, w') => while_running rest w'
    | (Raise e, w') => (Raise e, w')
    end.
Proof. reflexivity. Qed.

(** The loop ends by [running] becoming false or by an exception that is
    not [USBError]. *)
Lemma while_running_catches_USBError (ticks : list (settings F * F)) :
  forall w : world F, fst (while_running ticks w) <> Raise USBError.
Proof.
  induction ticks as [|[g now] rest IH]; intros w.
  - cbn. discriminate.
  - rewrite while_running_cons.
    pose proof (body_catches_USBError g now w) as Hbody.
    destruct (usb_loop_body g now w) as [[u|e] w']; cbn [fst] in *.
    + apply IH.
    + exact Hbody.
Qed.

End LoopFacts.

(** C1: an iteration whose claim returns and one of whose two transfers
    raises [USBError] ends in the handler: the next event is the 0.5 s
    sleep (ten times the 0.05 s of a completed iteration, which does not
    occur), but nothing releases the interface: it is still claimed when
    the loop backs off, where sections 4.3 and 4.4 of the specification
    have it released first. *)
Theorem transfer_failure_leaves_interface_claimed {F : Type} `{Float64 F}
    (g : settings F) (now : F) (w : world F) (lower upper : Z) :
  snd (compute g now (st w)) = Ok (lower, upper) ->
  0 <= lower < 256 -> 0 <= upper < 256 ->
  outcome (dev w) 0 = true ->
  outcome (dev w) 1 = false
  \/ (outcome (dev w) 1 = true /\ outcome (dev w) 2 = false) ->
  let w' := snd (usb_loop_body g now w) in
  fst (usb_loop_body g now w) = Ok tt
  /\ claimed (dev w') = true
  /\ (trace (dev w')
      = trace (dev w)
        ++ [Claim true; transfer (spec_brightness_frame lower upper) false;
            Sleep 0.5]
      \/ trace (dev w')
         = trace (dev w)
           ++ [Claim true; transfer (spec_brightness_frame lower upper) true;
               transfer (spec_heartbeat_frame (Z.max lower upper)) false;
               Sleep 0.5])
  /\ (0.5 == 10 * 0.05)%Q.
Proof.
  intros Hc Hl Hu H0 Hfail w'. subst w'.
  destruct (body_transfer_fails g now w lower upper Hc Hl Hu H0) as [B1 B2].
  destruct Hfail as [H1|[H1 H2]].
  - rewrite (B1 H1). cbn [fst snd dev claimed trace].
    repeat split; auto.
  - rewrite (B2 H1 H2). cbn [fst snd dev claimed trace].
    repeat split; auto.
Qed.

(** The device found unclaimed, the first transfer of the first iteration
    failing; the settings are the module's initial values. *)
Lemma transfer_failure_leaves_interface_claimed_witness :
  let g := {| led_enabled := true; led_mode := "bottom";
              led_effect := "static"; brightness_raw := 24;
              wave_speed := 1%R |} in
  let w := {| st := {| wave_phase := 0%R; last_effect := None |};
              dev := {| claimed := false; script := [true; false];
                        trace := [] |} |} in
  claimed (dev (snd (usb_loop_body g 0%R w))) = true
  /\ trace (dev (snd (usb_loop_body g 0%R w)))
     = [Claim true; transfer (spec_brightness_frame 24 0) false; Sleep 0.5].
Proof.
  intros g w.
  assert (Hc : snd (compute g 0%R (st w)) = Ok (24, 0)) by reflexivity.
  assert (Hl : 0 <= 24 < 256) by lia.
  assert (Hu : 0 <= 0 < 256) by lia.
  assert (H0 : outcome (dev w) 0 = true) by reflexivity.
  assert (H1 : outcome (dev w) 1 = false) by reflexivity.
  destruct (transfer_failure_leaves_interface_claimed
              g 0%R w 24 0 Hc Hl Hu H0 (or_introl H1))
    as (_ & Hclaimed & Htrace & _).
  - split; [exact Hclaimed|].
    destruct Htrace as [Ht|Ht]; [exact Ht|].
    exfalso. revert Ht. unfold usb_loop_body, try_except_USBError, bind.
    cbn. discriminate.
Defined.

(** C10: with [enabled = false] an iteration whose four USB calls return
    still claims, sends the brightness command and then the heartbeat
    command, releases and sleeps 0.05 s; bytes 1 and 5 of the brightness
    command and byte 1 of the heartbeat command are 0. *)
Theorem disabled_still_transmits {F : Type} `{Float64 F}
    (mode effect : string) (brightness : Z) (speed now : F) (w : world F) :
  outcome (dev w) 0 = true -> outcome (dev w) 1 = true ->
  outcome (dev w) 2 = true -> outcome (dev w) 3 = true ->
  let g := {| led_enabled := false; led_mode := mode; led_effect := effect;
              brightness_raw := brightness; wave_speed := speed |} in
  usb_loop_body g now w
  = (Ok tt,
     {| st := detect_transition g (st w);
        dev := {| claimed := false;
                  script := drop 4 (script (dev w));
                  trace := trace (dev w)
                           ++ [Claim true;
                               transfer (spec_brightness_frame 0 0) true;
                               transfer (spec_heartbeat_frame 0) true;
                               Release true;
                               Sleep 0.05] |} |})
  /\ spec_brightness_frame 0 0 !! 0%nat = Some 0x81
  /\ spec_brightness_frame 0 0 !! 1%nat = Some 0
  /\ spec_brightness_frame 0 0 !! 5%nat = Some 0
  /\ spec_heartbeat_frame 0 !! 0%nat = Some 0x04
  /\ spec_heartbeat_frame 0 !! 1%nat = Some 0.
Proof.
  intros H0 H1 H2 H3 g. repeat split.
  apply (body_completes g now w 0 0); auto; lia.
Qed.

Lemma disabled_still_transmits_witness :
  let g := {| led_enabled := false; led_mode := "both"; led_effect := "wave";
              brightness_raw := 242; wave_speed := 1%R |} in
  let w := {| st := {| wave_phase := 2%R; last_effect := Some "wave" |};
              dev := {| claimed := false; script := []; trace := [] |} |} in
  trace (dev (snd (usb_loop_body g 0%R w)))
  = [Claim true; transfer (spec_brightness_frame 0 0) true;
     transfer (spec_heartbeat_frame 0) true; Release true; Sleep 0.05].
Proof.
  intros g w.
  assert (Hok : forall i, outcome (dev w) i = true) by (now intros [|[|i]]).
  destruct (disabled_still_transmits "both" "wave" 242 1%R 0%R w
              (Hok 0%nat) (Hok 1%nat) (Hok 2%nat) (Hok 3%nat))
    as (Hrun & _).
  fold g in Hrun. rewrite Hrun. reflexivity.
Defined.

(** ** Truncation and the sine factor over the reals *)

Local Open Scope R_scope.

Lemma Rtrunc_spec (x : R) :
  (0 <= x -> IZR (Rtrunc x) <= x < IZR (Rtrunc x) + 1)
  /\ (x < 0 -> IZR (Rtrunc x) - 1 < x <= IZR (Rtrunc x)).
Proof.
  unfold Rtrunc. destruct (Rle_dec 0 x) as [Hx|Hx]; split; intros Hs; try lra.
  - apply Zfloor_bound.
  - apply Zceil_bound.
Qed.

Lemma Rtrunc_nonneg (x : R) : 0 <= x -> Rtrunc x = Zfloor x.
Proof. intros Hx. unfold Rtrunc. now destruct (Rle_dec 0 x). Qed.

Lemma Rtrunc_IZR (n : Z) : Rtrunc (IZR n) = n.
Proof.
  unfold Rtrunc. destruct (Rle_dec 0 (IZR n)).
  - apply ZfloorZ.
  - unfold Zceil. rewrite ZfloorNZ. lia.
Qed.

Lemma Rtrunc_zero_mul (x : R) : Rtrunc (IZR 0 * x) = 0%Z.
Proof. rewrite Rmult_0_l. apply (Rtrunc_IZR 0). Qed.

(** Half of an integer, truncated toward zero, is Python's [int(n/2)]. *)
Lemma Rtrunc_half (n : Z) : Rtrunc (IZR n * (1 / 2)) = (n ÷ 2)%Z.
Proof.
  assert (Hq : n = (2 * (n ÷ 2) + Z.rem n 2)%Z) by apply Z.quot_rem'.
  assert (HR : IZR n = 2 * IZR (n ÷ 2) + IZR (Z.rem n 2)).
  { rewrite Hq at 1. rewrite plus_IZR, mult_IZR. reflexivity. }
  unfold Rtrunc. destruct (Rle_dec 0 (IZR n * (1 / 2))) as [Hx|Hx].
  - assert (Hn : (0 <= n)%Z) by (apply le_IZR; lra).
    assert (Hr : (0 <= Z.rem n 2 <= 1)%Z).
    { pose proof (Z.rem_bound_pos n 2 Hn ltac:(lia)). lia. }
    destruct Hr as [Hr0 Hr1]. apply IZR_le in Hr0, Hr1.
    apply Zfloor_eq. lra.
  - assert (Hn : (n <= 0)%Z) by (apply le_IZR; lra).
    assert (Hr : (-1 <= Z.rem n 2 <= 0)%Z).
    { pose proof (Z.rem_bound_abs n 2). pose proof (Z.rem_nonpos n 2). lia. }
    destruct Hr as [Hr0 Hr1]. apply IZR_le in Hr0, Hr1.
    apply Zceil_eq. lra.
Qed.

Lemma wave_factor_R (p : R) : wave_factor p = (sin p + 1) / 2.
Proof. reflexivity. Qed.

Lemma wave_factor_range (p : R) : 0 <= wave_factor p <= 1.
Proof. rewrite wave_factor_R. pose proof (SIN_bound p). lra. Qed.

Lemma wave_factor_period (p : R) : wave_factor (p + 2 * PI) = wave_factor p.
Proof.
  rewrite !wave_factor_R, sin_plus, sin_2PI, cos_2PI. f_equal. lra.
Qed.

Lemma wave_factor_0 : wave_factor 0 = 1 / 2.
Proof. rewrite wave_factor_R, sin_0. lra. Qed.



(** ** Conversions on binary64 *)

Lemma binary64_half_table (npsin : float -> float) :
  npsin 0%float = 0%float ->
  let ops := Float64_binary64 npsin in
  forallb (fun n =>
             match py_int (f_of_int n * wave_factor (f_lit 0))%f64 with
             | Ok k => (k =? n ÷ 2)%Z
             | Raise _ => false
             end)
          (map Z.of_nat (seq 0 243))
  = true.
Proof.
  intros Hsin ops. unfold wave_factor.
  cbn [np_sin f_lit ops Float64_binary64].
  replace (float_lit 0) with 0%float by (vm_compute; reflexivity).
  rewrite Hsin. vm_compute. reflexivity.
Qed.

(** At phase 0.0 the factor is the float 0.5 and halving is exact. *)
Lemma binary64_half (npsin : float -> float) (n : Z) :
  npsin 0%float = 0%float -> (0 <= n <= 242)%Z ->
  let ops := Float64_binary64 npsin in
  py_int (f_of_int n * wave_factor (f_lit 0))%f64 = Ok (n ÷ 2)%Z.
Proof.
  intros Hsin Hn ops.
  pose proof (binary64_half_table npsin Hsin) as T. cbv zeta in T. fold ops in T.
  rewrite forallb_forall in T. specialize (T n).
  assert (Hin : In n (map Z.of_nat (seq 0 243))).
  { apply in_map_iff. exists (Z.to_nat n). split; [lia|]. apply in_seq. lia. }
  specialize (T Hin).
  destruct (py_int _) as [k|e]; [|discriminate].
  apply Z.eqb_eq in T. now subst k.
Qed.

(** ** Effects *)

(** C5: with [enabled = true] and the wave effect an iteration first
    advances the phase left by the transition check by 0.05 * waveSpeed,
    then returns the static pair, each component multiplied by
    factor = (sin(phase) + 1) / 2 at the advanced phase and converted by
    [int()]: so in every arithmetic.  Over the reals [int()] truncates
    toward zero, the factor has period 2*PI in the phase, and at phase 0
    it is 1/2, where a component n becomes n/2 truncated toward zero; the
    last also on binary64 for the components of [0,242], given
    [np.sin(0.0) = 0.0]. *)
Theorem wave_scales_by_sine :
  (forall (F : Type) (ops : Float64 F)
          (mode : string) (b : Z) (speed t : F) (a : anim F),
      let g effect := {| led_enabled := true; led_mode := mode;
                         led_effect := effect; brightness_raw := b;
                         wave_speed := speed |} in
      let p0 := wave_phase (detect_transition (g "wave") a) in
      let p1 := (p0 + f_lit 0.05 * speed)%f64 in
      exists lower upper : Z,
        snd (compute (g "static") t a) = Ok (lower, upper)
        /\ compute (g "wave") t a
           = ({| wave_phase := p1; last_effect := Some "wave" |},
              lower' <-? py_int (f_of_int lower * wave_factor p1)%f64 ;;
              upper' <-? py_int (f_of_int upper * wave_factor p1)%f64 ;;
              Ok (lower', upper')))
  /\ (forall x : R,
        exists k : Z,
          py_int x = Ok k
          /\ (0 <= x -> IZR k <= x < IZR k + 1)
          /\ (x < 0 -> IZR k - 1 < x <= IZR k))
  /\ (forall p : R,
        wave_factor p = (sin p + 1) / 2
        /\ 0 <= wave_factor p <= 1
        /\ wave_factor (p + 2 * PI) = wave_factor p)
  /\ wave_factor 0 = 1 / 2
  /\ (forall n : Z, py_int (IZR n * wave_factor 0) = Ok (n ÷ 2)%Z)
  /\ (forall (npsin : float -> float) (n : Z),
        npsin 0%float = 0%float -> (0 <= n <= 242)%Z ->
        let ops := Float64_binary64 npsin in
        py_int (f_of_int n * wave_factor (f_lit 0))%f64 = Ok (n ÷ 2)%Z).
Proof.
  split; [|split; [|split; [|split; [|split]]]].
  - intros F ops mode b speed t a g p0 p1.
    exists (fst (zone_base (g "wave"))), (snd (zone_base (g "wave"))).
    split.
    + unfold compute. rewrite intensities_static by (cbn; first [reflexivity | discriminate]).
      cbn [snd]. change (zone_base (g "static")) with (zone_base (g "wave")).
      now destruct (zone_base (g "wave")).
    + unfold compute. rewrite intensities_wave by reflexivity.
      cbv zeta. now rewrite detect_transition_last.
  - intros x. exists (Rtrunc x). split; [reflexivity|apply Rtrunc_spec].
  - intros p.
    split; [apply wave_factor_R|split;
            [apply wave_factor_range|apply wave_factor_period]].
  - exact wave_factor_0.
  - intros n. rewrite wave_factor_0. cbn [py_int Float64_R].
    now rewrite Rtrunc_half.
  - intros npsin n Hsin Hn. now apply binary64_half.
Qed.

Lemma wave_scales_by_sine_witness :
  let ops := Float64_binary64 (fun x : float => x) in
  py_int (f_of_int 121 * wave_factor (f_lit 0))%f64 = Ok 60%Z.
Proof.
  assert (Hsin : (fun x : float => x) 0%float = 0%float) by reflexivity.
  assert (Hn : (0 <= 121 <= 242)%Z) by lia.
  exact (proj2 (proj2 (proj2 (proj2 (proj2 wave_scales_by_sine))))
           (fun x : float => x) 121%Z Hsin Hn).
Defined.



(** C8, as stated, fails: with the LEDs disabled the wave branch is not
    reached and the phase keeps its value, although the effect is wave on
    this and on the previous iteration and the speed is positive. *)
Lemma phase_stalls_when_disabled :
  let g := {| led_enabled := false; led_mode := "bottom";
              led_effect := "wave"; brightness_raw := 24;
              wave_speed := 1 |} in
  let a := {| wave_phase := 0; last_effect := Some "wave" |} in
  led_effect g = "wave"
  /\ last_effect a = Some (led_effect g)
  /\ 0 < wave_speed g
  /\ wave_phase (fst (compute g 0 a)) = wave_phase a
  /\ ~ wave_phase a < wave_phase (fst (compute g 0 a)).
Proof.
  cbv zeta. cbn. repeat split; try lra.
Qed.

(** C8, amended: on an iteration whose effect is wave, as on the previous
    one, the phase after the iteration is the phase before plus
    0.05 * waveSpeed when the LEDs are enabled, whatever the zone mode and
    the brightness, and the phase before when they are disabled: so in
    every arithmetic, the sum being that arithmetic's.  Over the reals,
    with a positive speed, the phase after an enabled iteration is
    strictly greater.  On binary64 the rounded sum need not be: at phase
    2^53 with the slider's smallest speed 0.1, and at phase 1.0 with
    speed 2^-60, an enabled iteration leaves the phase where it was. *)
Theorem wave_phase_advances_when_enabled :
  (forall (F : Type) (ops : Float64 F)
          (mode : string) (b : Z) (speed t : F) (a : anim F),
      last_effect a = Some "wave" ->
      let g enabled := {| led_enabled := enabled; led_mode := mode;
                          led_effect := "wave"; brightness_raw := b;
                          wave_speed := speed |} in
      wave_phase (fst (compute (g true) t a))
      = (wave_phase a + f_lit 0.05 * speed)%f64
      /\ wave_phase (fst (compute (g false) t a)) = wave_phase a)
  /\ (forall (mode : string) (b : Z) (speed t : R) (a : anim R),
        last_effect a = Some "wave" ->
        0 < speed ->
        let g := {| led_enabled := true; led_mode := mode;
                    led_effect := "wave"; brightness_raw := b;
                    wave_speed := speed |} in
        wave_phase (fst (compute g t a)) = wave_phase a + 0.05 * speed
        /\ wave_phase a < wave_phase (fst (compute g t a)))
  /\ (forall (npsin : float -> float) (mode : string) (b : Z) (t : float),
        let ops := Float64_binary64 npsin in
        let g speed := {| led_enabled := true; led_mode := mode;
                          led_effect := "wave"; brightness_raw := b;
                          wave_speed := speed |} in
        let a phase := {| wave_phase := phase; last_effect := Some "wave" |} in
        PrimFloat.ltb 0 (change_wave 1) = true
        /\ wave_phase (fst (compute (g (change_wave 1)) t (a 0x1p53%float)))
           = 0x1p53%float
        /\ PrimFloat.ltb 0 0x1p-60 = true
        /\ wave_phase (fst (compute (g 0x1p-60%float) t (a 1%float)))
           = 1%float).
Proof.
  assert (Hany : forall (F : Type) (ops : Float64 F)
            (mode : string) (b : Z) (speed t : F) (a : anim F),
            last_effect a = Some "wave" ->
            let g enabled := {| led_enabled := enabled; led_mode := mode;
                                led_effect := "wave"; brightness_raw := b;
                                wave_speed := speed |} in
            wave_phase (fst (compute (g true) t a))
            = (wave_phase a + f_lit 0.05 * speed)%f64
            /\ wave_phase (fst (compute (g false) t a)) = wave_phase a).
  { intros F ops mode b speed t a Hlast g.
    assert (Hd : forall e, detect_transition (g e) a = a).
    { intros e. unfold detect_transition. cbn [led_effect g].
      now rewrite (proj2 (effect_changed_false "wave" (last_effect a)) Hlast). }
    unfold compute. rewrite !Hd. split.
    - rewrite intensities_wave by reflexivity. reflexivity.
    - apply intensities_phase_other. now left. }
  split; [exact Hany|split].
  - intros mode b speed t a Hlast Hspeed g.
    destruct (Hany R Float64_R mode b speed t a Hlast) as [Hon _].
    fold g in Hon. split; [exact Hon|].
    rewrite Hon. cbn [f_add f_mul f_lit Float64_R]. lra.
  - intros npsin mode b t ops g a.
    split; [vm_compute; reflexivity|split; [|split; [vm_compute; reflexivity|]]].
    + etransitivity;
        [exact (proj1 (Hany float ops mode b (change_wave 1) t
                         (a 0x1p53%float) eq_refl))|].
      vm_compute. reflexivity.
    + etransitivity;
        [exact (proj1 (Hany float ops mode b 0x1p-60%float t
                         (a 1%float) eq_refl))|].
      vm_compute. reflexivity.
Qed.

Lemma wave_phase_advances_when_enabled_witness :
  let g := {| led_enabled := true; led_mode := "top"; led_effect := "wave";
              brightness_raw := 121; wave_speed := 2.5 |} in
  let a := {| wave_phase := 1; last_effect := Some "wave" |} in
  last_effect a = Some "wave" /\ 0 < 2.5
  /\ wave_phase (fst (compute g 0 a)) = 1 + 0.05 * 2.5
  /\ 1 < wave_phase (fst (compute g 0 a)).
Proof.
  intros g a.
  assert (Hlast : last_effect a = Some "wave") by reflexivity.
  assert (Hspeed : 0 < 2.5) by lra.
  split; [exact Hlast|split; [exact Hspeed|]].
  exact (proj1 (proj2 wave_phase_advances_when_enabled)
           "top" 121%Z 2.5 0 a Hlast Hspeed).
Defined.

(** C9: when the zone mode is none of "bottom", "top" and "both", no
    branch of the mode dispatch fires and the pair stays (0, 0): the
    engine returns (0, 0) in every arithmetic when the LEDs are disabled
    or the effect is neither blink nor wave, and over the reals for every
    enabled flag, effect, brightness, clock and phase, without raising;
    the iteration around it then ends normally on every device. *)
Theorem unknown_mode_is_dark :
  (forall (F : Type) (ops : Float64 F) (g : settings F) (t : F) (a : anim F),
      led_mode g <> "bottom" -> led_mode g <> "top" -> led_mode g <> "both" ->
      zone_base g = (0, 0)%Z
      /\ (led_enabled g = false
          \/ (led_effect g <> "blink" /\ led_effect g <> "wave") ->
          snd (compute g t a) = Ok (0, 0)%Z))
  /\ (forall (g : settings R) (t : R) (a : anim R),
        led_mode g <> "bottom" -> led_mode g <> "top" -> led_mode g <> "both" ->
        snd (compute g t a) = Ok (0, 0)%Z
        /\ (forall d : device,
              fst (usb_loop_body g t {| st := a; dev := d |}) = Ok tt)).
Proof.
  split.
  - intros F ops g t a Hb Ht Hboth.
    pose proof (zone_base_unknown g Hb Ht Hboth) as Hz.
    split; [exact Hz|].
    intros Hcase. unfold compute.
    destruct (led_enabled g) eqn:Hon.
    + destruct Hcase as [Hoff|[Hnb Hnw]]; [discriminate|].
      rewrite intensities_static by assumption. cbn [snd]. now rewrite Hz.
    + unfold intensities. now rewrite Hon.
  - intros g t a Hb Ht Hboth.
    pose proof (zone_base_unknown g Hb Ht Hboth) as Hz.
    assert (Hc : snd (compute g t a) = Ok (0, 0)%Z).
    { unfold compute.
      destruct (led_enabled g) eqn:Hon;
        [|unfold intensities; now rewrite Hon].
      destruct (String.eqb_spec (led_effect g) "blink") as [Hblink|Hnb].
      - rewrite intensities_blink by assumption. now rewrite Hz.
      - destruct (String.eqb_spec (led_effect g) "wave") as [Hwave|Hnw].
        + rewrite intensities_wave by assumption. rewrite Hz.
          cbn [fst snd rbind py_int Float64_R f_mul f_of_int].
          now rewrite !Rtrunc_zero_mul.
        + rewrite intensities_static by assumption. cbn [snd].
          now rewrite Hz. }
    split; [exact Hc|].
    intros d. apply (body_returns g t _ 0%Z 0%Z); [exact Hc|lia|lia].
Qed.

Lemma unknown_mode_is_dark_witness :
  let g := {| led_enabled := true; led_mode := "middle"; led_effect := "wave";
              brightness_raw := 242; wave_speed := 1 |} in
  let a := {| wave_phase := 0; last_effect := None |} in
  led_mode g <> "bottom" /\ snd (compute g 0 a) = Ok (0, 0)%Z.
Proof.
  intros g a.
  assert (Hb : led_mode g <> "bottom") by (cbn; discriminate).
  assert (Ht : led_mode g <> "top") by (cbn; discriminate).
  assert (Hboth : led_mode g <> "both") by (cbn; discriminate).
  split; [exact Hb|].
  exact (proj1 (proj2 unknown_mode_is_dark g 0 a Hb Ht Hboth)).
Defined.

(** ** The loop on binary64 *)

Example binary64_literal : float_lit 0.05 = 0x1.999999999999ap-5%float.
Proof. vm_compute. reflexivity. Qed.

Example binary64_wave_speed (npsin : float -> float) :
  @change_wave float (Float64_binary64 npsin) 25 = 2.5%float.
Proof. vm_compute. reflexivity. Qed.

(** [int(value*242/100)] computed in binary64 is the truncated quotient
    of [change_brightness] at every position of the slider. *)
Example binary64_change_brightness :
  forallb (fun value =>
             match float_int (PrimFloat.div (float_of_int (value * 242))
                                            (float_of_int 100)) with
             | Ok n => (n =? change_brightness value)%Z
             | Raise _ => false
             end)
          (map Z.of_nat (seq 0 101))
  = true.
Proof. vm_compute. reflexivity. Qed.

(** Two wave iterations from the start: the phase is 0.05 and then 0.1,
    whatever [np.sin] returns. *)
Example binary64_wave_phase (npsin : float -> float) :
  let ops := Float64_binary64 npsin in
  let g := {| led_enabled := true; led_mode := "both"; led_effect := "wave";
              brightness_raw := 24; wave_speed := 1%float |} in
  let a0 := {| wave_phase := 0%float; last_effect := None |} in
  let a1 := fst (compute g 1730000000%float a0) in
  let a2 := fst (compute g 1730000000.0625%float a1) in
  wave_phase a1 = 0x1.999999999999ap-5%float
  /\ wave_phase a2 = 0x1.999999999999ap-4%float.
Proof. split; vm_compute; reflexivity. Qed.

(** The first transfer of the first iteration fails, the device is well
    afterwards: the interface stays claimed over the 0.5 s sleep and is
    released at the end of the second iteration. *)
Example binary64_fault_then_recovery (npsin : float -> float) :
  let ops := Float64_binary64 npsin in
  let g := {| led_enabled := true; led_mode := "bottom";
              led_effect := "static"; brightness_raw := 24;
              wave_speed := 1%float |} in
  let d := {| claimed := false; script := [true; false]; trace := [] |} in
  dev (snd (usb_loop true [(g, 1730000000%float)] d))
  = {| claimed := true; script := [];
       trace := [Claim true; transfer (spec_brightness_frame 24 0) false;
                 Sleep 0.5] |}
  /\ dev (snd (usb_loop true [(g, 1730000000%float); (g, 1730000000.5%float)] d))
     = {| claimed := false; script := [];
          trace := [Claim true; transfer (spec_brightness_frame 24 0) false;
                    Sleep 0.5;
                    Claim true; transfer (spec_brightness_frame 24 0) true;
                    transfer (spec_heartbeat_frame 24) true; Release true;
                    Sleep 0.05] |}.
Proof. split; vm_compute; reflexivity. Qed.

Example binary64_blink (npsin : float -> float) :
  @blink_state float (Float64_binary64 npsin) 1730000000.75%float = Ok 1%Z
  /\ @blink_state float (Float64_binary64 npsin) 1730000001.25%float = Ok 0%Z.
Proof. split; vm_compute; reflexivity. Qed.

(** * Further properties of the code *)

Local Open Scope Z_scope.

(** ** Sliders (lines 126-154 and 166-180) *)

Lemma in_slider_range (lo n : nat) (value : Z) :
  Z.of_nat lo <= value < Z.of_nat (lo + n) ->
  In value (map Z.of_nat (seq lo n)).
Proof.
  intros Hv. apply in_map_iff. exists (Z.to_nat value).
  split; [lia|]. apply in_seq. lia.
Qed.

(** X1: for every position 0..100 of the brightness slider the value
    written to [brightness_raw] lies in [0,242] and grows with the
    position; [int(value*242/100)] evaluated in binary64, as Python does,
    is that truncated quotient. *)
Theorem slider_brightness_fits_zone_byte (value : Z) :
  0 <= value <= 100 ->
  0 <= change_brightness value <= 242
  /\ (forall value' : Z,
        value <= value' <= 100 ->
        change_brightness value <= change_brightness value')
  /\ change_brightness 0 = 0
  /\ change_brightness 100 = 242
  /\ float_int (PrimFloat.div (float_of_int (value * 242)) (float_of_int 100))
     = Ok (change_brightness value).
Proof.
  intros Hv. split; [now apply change_brightness_range|].
  split; [|split; [reflexivity|split; [reflexivity|]]].
  - intros value' Hv'. unfold change_brightness.
    apply Z.quot_le_mono; lia.
  - pose proof binary64_change_brightness as T.
    rewrite forallb_forall in T.
    specialize (T value (in_slider_range 0 101 value ltac:(lia))).
    destruct (float_int _) as [n|e]; [|discriminate].
    apply Z.eqb_eq in T. now subst n.
Qed.

Lemma slider_brightness_fits_zone_byte_witness :
  0 <= 50 <= 100 /\ 0 <= change_brightness 50 <= 242
  /\ float_int (PrimFloat.div (float_of_int (50 * 242)) (float_of_int 100))
     = Ok (change_brightness 50).
Proof.
  assert (Hv : 0 <= 50 <= 100) by lia.
  destruct (slider_brightness_fits_zone_byte 50 Hv) as (Hr & _ & _ & _ & Hf).
  split; [exact Hv|split; [exact Hr|exact Hf]].
Defined.

Lemma binary64_wave_speed_table (npsin : float -> float) :
  forallb (fun value =>
             PrimFloat.ltb 0 (@change_wave float (Float64_binary64 npsin) value)
             && PrimFloat.leb (@change_wave float (Float64_binary64 npsin) value) 5)
          (map Z.of_nat (seq 1 50))
  = true.
Proof. vm_compute. reflexivity. Qed.

(** X2: for every position 1..50 of the wave slider the speed written to
    [wave_speed] is value/10: over the reals between 0.1 and 5, and on
    binary64 a float above 0 and at most 5 (so neither NaN nor infinite). *)
Theorem slider_wave_speed_positive (value : Z) :
  1 <= value <= 50 ->
  (@change_wave R Float64_R value = IZR value / 10
   /\ 1 / 10 <= @change_wave R Float64_R value <= 5)%R
  /\ (forall npsin : float -> float,
        PrimFloat.ltb 0 (@change_wave float (Float64_binary64 npsin) value) = true
        /\ PrimFloat.leb (@change_wave float (Float64_binary64 npsin) value) 5 = true).
Proof.
  intros [Hlo Hhi]. split.
  - split; [reflexivity|].
    unfold change_wave. cbn [f_div f_of_int Float64_R].
    apply IZR_le in Hlo, Hhi. lra.
  - intros npsin.
    pose proof (binary64_wave_speed_table npsin) as T.
    rewrite forallb_forall in T.
    specialize (T value (in_slider_range 1 50 value ltac:(lia))).
    now apply andb_true_iff in T.
Qed.

Lemma slider_wave_speed_positive_witness :
  1 <= 25 <= 50
  /\ (@change_wave R Float64_R 25 = IZR 25 / 10)%R.
Proof.
  assert (Hv : 1 <= 25 <= 50) by lia.
  split; [exact Hv|].
  exact (proj1 (proj1 (slider_wave_speed_positive 25 Hv))).
Defined.

(** ** Frame encoder (lines 80-91) *)

Lemma set_value_error (b : list Z) (i : nat) (v : Z) :
  (i < length b)%nat -> fits_byte v = false ->
  Bytearray.set b i v = Raise ValueError.
Proof.
  intros Hi Hv. unfold Bytearray.set. apply Nat.ltb_lt in Hi.
  unfold fits_byte in Hv. now rewrite Hi, Hv.
Qed.

Lemma fits_byte_spec (v : Z) : fits_byte v = true <-> 0 <= v < 256.
Proof. unfold fits_byte. rewrite andb_true_iff, Z.leb_le, Z.ltb_lt. tauto. Qed.

Lemma brightness_cmd_value_error (lower upper : Z) :
  fits_byte lower && fits_byte upper = false ->
  brightness_cmd lower upper = Raise ValueError.
Proof.
  intros Hbad. unfold brightness_cmd, Bytearray.make.
  rewrite set_in_range by (cbn; lia). cbn [rbind].
  destruct (fits_byte lower) eqn:Hl.
  - apply fits_byte_spec in Hl. cbn in Hbad.
    rewrite set_in_range by (cbn; lia). cbn [rbind].
    rewrite set_in_range by (cbn; lia). cbn [rbind].
    now rewrite set_value_error by (cbn; lia || assumption).
  - now rewrite set_value_error by (cbn; lia || assumption).
Qed.

Lemma frame_bytes (l : list Z) :
  forallb fits_byte l = true -> Forall (fun b => 0 <= b < 256) l.
Proof.
  intros Hl. apply Forall_forall. intros b Hb.
  apply fits_byte_spec. apply list_elem_of_In in Hb.
  rewrite forallb_forall in Hl. now apply Hl.
Qed.

(** X3: the encoder builds its two buffers exactly when both intensities
    are in [0,255]; otherwise the store of the offending intensity raises
    [ValueError] and no brightness command exists.  A buffer it builds has
    64 cells, each in [0,255], and whenever the brightness command is
    built the heartbeat command is built too, its level being the larger
    of the two intensities. *)
Theorem encoder_domain (lower upper : Z) :
  (0 <= lower < 256 /\ 0 <= upper < 256 <->
   exists cmd : list Z, brightness_cmd lower upper = Ok cmd)
  /\ (~ (0 <= lower < 256 /\ 0 <= upper < 256) ->
      brightness_cmd lower upper = Raise ValueError)
  /\ (forall cmd : list Z,
        brightness_cmd lower upper = Ok cmd ->
        length cmd = 64%nat
        /\ Forall (fun b => 0 <= b < 256) cmd
        /\ exists hb : list Z,
             heartbeat_cmd lower upper = Ok hb
             /\ length hb = 64%nat
             /\ Forall (fun b => 0 <= b < 256) hb
             /\ hb !! 1%nat = Some (Z.max lower upper)
             /\ cmd !! 1%nat = Some lower /\ cmd !! 5%nat = Some upper).
Proof.
  assert (Hbad : ~ (0 <= lower < 256 /\ 0 <= upper < 256) ->
                 brightness_cmd lower upper = Raise ValueError).
  { intros Hn. apply brightness_cmd_value_error.
    apply andb_false_iff.
    destruct (fits_byte lower) eqn:Hl; [|now left].
    destruct (fits_byte upper) eqn:Hu; [|now right].
    apply fits_byte_spec in Hl, Hu. tauto. }
  assert (Hdom : forall cmd, brightness_cmd lower upper = Ok cmd ->
                 0 <= lower < 256 /\ 0 <= upper < 256).
  { intros cmd Hcmd.
    destruct (fits_byte lower) eqn:Hl, (fits_byte upper) eqn:Hu;
      try (rewrite brightness_cmd_value_error in Hcmd
             by (rewrite Hl, Hu; reflexivity); discriminate).
    apply fits_byte_spec in Hl, Hu. tauto. }
  split; [|split; [exact Hbad|]].
  - split.
    + intros [Hl Hu]. eexists. now apply brightness_cmd_bytes.
    + intros [cmd Hcmd]. now apply (Hdom cmd).
  - intros cmd Hcmd. destruct (Hdom cmd Hcmd) as [Hl Hu].
    rewrite (brightness_cmd_bytes lower upper Hl Hu) in Hcmd.
    injection Hcmd as <-.
    split; [reflexivity|split].
    + apply frame_bytes. cbn.
      rewrite (proj2 (fits_byte_spec lower) Hl), (proj2 (fits_byte_spec upper) Hu).
      reflexivity.
    + exists (spec_heartbeat_frame (Z.max lower upper)).
      split; [now apply heartbeat_cmd_bytes|].
      split; [reflexivity|split; [|repeat split]].
      apply frame_bytes. cbn.
      rewrite (proj2 (fits_byte_spec (Z.max lower upper))) by lia.
      reflexivity.
Qed.

(** ** Intensities stay within the brightness (lines 56-78) *)

Lemma zone_base_bounds {F : Type} `{Float64 F} (g : settings F) :
  0 <= brightness_raw g ->
  0 <= fst (zone_base g) <= brightness_raw g
  /\ 0 <= snd (zone_base g) <= brightness_raw g.
Proof.
  intros Hb. unfold zone_base.
  destruct (String.eqb (led_mode g) "bottom"); [cbn; lia|].
  destruct (String.eqb (led_mode g) "top"); [cbn; lia|].
  destruct (String.eqb (led_mode g) "both"); cbn; lia.
Qed.

Lemma Rtrunc_scaled (n : Z) (f : R) :
  0 <= n -> (0 <= f <= 1)%R -> 0 <= Rtrunc (IZR n * f) <= n.
Proof.
  intros Hn Hf. apply IZR_le in Hn.
  assert (Hx : (0 <= IZR n * f <= IZR n)%R) by nra.
  rewrite Rtrunc_nonneg by apply Hx. split.
  - rewrite <- (ZfloorZ 0). apply Zfloor_le, Hx.
  - rewrite <- (ZfloorZ n) at 2. apply Zfloor_le, Hx.
Qed.

Lemma compute_bounded (g : settings R) (t : R) (a : anim R) :
  0 <= brightness_raw g ->
  exists lower upper : Z,
    snd (compute g t a) = Ok (lower, upper)
    /\ 0 <= lower <= brightness_raw g
    /\ 0 <= upper <= brightness_raw g.
Proof.
  intros Hb. destruct (zone_base_bounds g Hb) as [Hl Hu].
  unfold compute. destruct (led_enabled g) eqn:Hon.
  - destruct (String.eqb_spec (led_effect g) "blink") as [Hblink|Hnb].
    + rewrite intensities_blink by assumption. cbn [snd].
      destruct (blink_state t) as [s|e] eqn:Hs; [|discriminate].
      destruct (blink_state_bit t s Hs) as [-> | ->]; cbn [rbind];
        eexists; eexists; (split; [reflexivity|]); lia.
    + destruct (String.eqb_spec (led_effect g) "wave") as [Hwave|Hnw].
      * rewrite intensities_wave by assumption.
        cbn [snd rbind py_int Float64_R f_mul f_of_int].
        eexists; eexists; (split; [reflexivity|]).
        split;
          (split;
           [apply Rtrunc_scaled; [lia|apply wave_factor_range]
           |etransitivity;
            [apply Rtrunc_scaled; [lia|apply wave_factor_range]|lia]]).
      * rewrite intensities_static by assumption. cbn [snd].
        exists (fst (zone_base g)), (snd (zone_base g)).
        split; [now destruct (zone_base g)|]. lia.
  - unfold intensities. rewrite Hon. cbn [snd].
    exists 0, 0. split; [reflexivity|]. lia.
Qed.

(** X4: over the reals, with a brightness that is not negative, the
    engine returns a pair and never raises, and both intensities lie
    between 0 and the brightness: no zone mode, effect, clock value or
    phase makes a zone brighter than the setting.  With a brightness of at
    most 255 the pair is one the encoder accepts. *)
Theorem effects_never_exceed_brightness (g : settings R) (t : R) (a : anim R) :
  0 <= brightness_raw g ->
  exists lower upper : Z,
    snd (compute g t a) = Ok (lower, upper)
    /\ 0 <= lower <= brightness_raw g
    /\ 0 <= upper <= brightness_raw g
    /\ (brightness_raw g < 256 ->
        brightness_cmd lower upper = Ok (spec_brightness_frame lower upper)
        /\ heartbeat_cmd lower upper
           = Ok (spec_heartbeat_frame (Z.max lower upper))).
Proof.
  intros Hb.
  destruct (compute_bounded g t a Hb) as (lower & upper & Hc & Hl & Hu).
  exists lower, upper. repeat split; try lia; try exact Hc.
  - apply brightness_cmd_bytes; lia.
  - apply heartbeat_cmd_bytes; lia.
Qed.

Lemma effects_never_exceed_brightness_witness :
  let g := {| led_enabled := true; led_mode := "both"; led_effect := "wave";
              brightness_raw := 242; wave_speed := 1%R |} in
  let a := {| wave_phase := 0%R; last_effect := Some "wave" |} in
  0 <= brightness_raw g
  /\ exists lower upper : Z,
       snd (compute g 0%R a) = Ok (lower, upper)
       /\ 0 <= lower <= 242 /\ 0 <= upper <= 242.
Proof.
  intros g a.
  assert (Hb : 0 <= brightness_raw g) by (cbn; lia).
  split; [exact Hb|].
  destruct (effects_never_exceed_brightness g 0%R a Hb)
    as (lower & upper & Hc & Hl & Hu & _).
  exists lower, upper. split; [exact Hc|split; [exact Hl|exact Hu]].
Defined.

(** ** The loop as a whole (lines 46-96) *)

Lemma while_running_returns (ticks : list (settings R * R)) :
  Forall byte_brightness ticks ->
  forall w : world R, fst (while_running ticks w) = Ok tt.
Proof.
  induction ticks as [|[g now] rest IH]; intros Hall w; [reflexivity|].
  apply Forall_cons in Hall. destruct Hall as [Hg Hrest].
  unfold byte_brightness in Hg. cbn [fst] in Hg.
  rewrite while_running_cons.
  destruct (compute_bounded g now (st w)) as (lower & upper & Hc & Hl & Hu);
    [lia|].
  pose proof (body_returns g now w lower upper Hc ltac:(lia) ltac:(lia)) as Hbody.
  destruct (usb_loop_body g now w) as [[[]|e] w']; cbn [fst] in Hbody;
    [|discriminate].
  now apply IH.
Qed.

(** X5: over the reals, when every iteration sees a brightness in
    [0,255], the loop never ends by an exception: it runs every iteration
    until [running] is false, whatever the device does and whatever the
    modes, effects, speeds and clock values are. *)
Theorem loop_never_crashes
    (found : bool) (ticks : list (settings R * R)) (d : device) :
  Forall byte_brightness ticks ->
  fst (usb_loop found ticks d) = Ok tt
  /\ (forall w : world R, fst (while_running ticks w) = Ok tt).
Proof.
  intros Hall. split.
  - unfold usb_loop. destruct found; [|reflexivity].
    now apply while_running_returns.
  - now apply while_running_returns.
Qed.

Lemma loop_never_crashes_witness :
  let g := {| led_enabled := true; led_mode := "top"; led_effect := "wave";
              brightness_raw := 255; wave_speed := 5%R |} in
  let d := {| claimed := false; script := [false; true; false]; trace := [] |} in
  Forall byte_brightness [(g, 0%R); (g, 1%R)]
  /\ fst (usb_loop true [(g, 0%R); (g, 1%R)] d) = Ok tt.
Proof.
  intros g d.
  assert (Hall : Forall byte_brightness [(g, 0%R); (g, 1%R)]).
  { repeat constructor; cbn; lia. }
  split; [exact Hall|].
  exact (proj1 (loop_never_crashes true _ d Hall)).
Defined.

Ltac simpl_body := cbn -[brightness_cmd heartbeat_cmd compute transfer].

Ltac unfold_body :=
  unfold usb_loop_body, try_except_USBError, bind, on_device, on_anim, lift,
    claim_interface, ctrl_transfer, release_interface, sleep, next_outcome,
    status, outcome, events_since.

(** Every path through an iteration: the shape of the script, what the
    engine returns and what the two encoders return. *)
Ltac body_cases w g now :=
  let a := fresh "a" in let c := fresh "c" in let s := fresh "s" in
  let tr := fresh "tr" in
  destruct w as [a [c s tr]];
  unfold_body;
  destruct s as [|[] [|[] [|[] [|[] ?]]]];
  simpl_body;
  try (destruct (compute g now a) as [? [[? ?]|[]]]; simpl_body);
  repeat match goal with
         | |- context [brightness_cmd ?l ?u] =>
             destruct (brightness_cmd l u) as [?|[]]; simpl_body
         | |- context [heartbeat_cmd ?l ?u] =>
             destruct (heartbeat_cmd l u) as [?|[]]; simpl_body
         end.

(** X6: [usb.core.USBError] never leaves the loop, whichever call raises
    it and however often: an iteration and the whole of [usb_loop] return
    normally or end by another exception, in every arithmetic. *)
Theorem usb_errors_never_end_the_loop {F : Type} `{Float64 F}
    (found : bool) (ticks : list (settings F * F)) (d : device) :
  fst (usb_loop found ticks d) <> Raise USBError
  /\ (forall (g : settings F) (now : F) (w : world F),
        fst (usb_loop_body g now w) <> Raise USBError)
  /\ (forall (g : settings F) (now : F) (w : world F),
        (exists i : nat, (i < 4)%nat /\ outcome (dev w) i = false) ->
        forall lower upper : Z,
          snd (compute g now (st w)) = Ok (lower, upper) ->
          0 <= lower < 256 -> 0 <= upper < 256 ->
          fst (usb_loop_body g now w) = Ok tt
          /\ last (trace (dev (snd (usb_loop_body g now w)))) = Some (Sleep 0.5)).
Proof.
  split; [|split].
  - unfold usb_loop. destruct found; [|discriminate].
    apply while_running_catches_USBError.
  - intros g now w. apply body_catches_USBError.
  - intros g now w (i & Hi & Hfail) lower upper Hc Hl Hu.
    destruct (outcome (dev w) 0) eqn:H0.
    + destruct (outcome (dev w) 1) eqn:H1.
      * destruct (outcome (dev w) 2) eqn:H2.
        -- destruct (outcome (dev w) 3) eqn:H3.
           ++ destruct i as [|[|[|[|i]]]]; try congruence; lia.
           ++ rewrite (body_release_fails g now w lower upper Hc Hl Hu H0 H1 H2 H3).
              cbn [fst snd dev trace]. split; [reflexivity|].
              now rewrite last_app.
        -- rewrite (proj2 (body_transfer_fails g now w lower upper Hc Hl Hu H0)
                      H1 H2).
           cbn [fst snd dev trace].
           split; [reflexivity|]. now rewrite last_app.
      * rewrite (proj1 (body_transfer_fails g now w lower upper Hc Hl Hu H0)
                    H1).
        cbn [fst snd dev trace].
        split; [reflexivity|]. now rewrite last_app.
    + rewrite (body_claim_fails g now w H0). cbn [fst snd dev trace].
      split; [reflexivity|]. now rewrite last_app.
Qed.

(** X7: an iteration appends its events to the trace and makes between
    one and four USB calls.  When it returns it has slept exactly once, as
    its last action: 0.05 s when it released the interface, 0.5 s when it
    did not; when it ends by an exception it has not slept.  So in every
    arithmetic and for every result of the engine and the encoders. *)
Theorem iteration_sleeps_once {F : Type} `{Float64 F}
    (g : settings F) (now : F) (w : world F) :
  let r := usb_loop_body g now w in
  let new := events_since (dev w) (dev (snd r)) in
  trace (dev (snd r)) = trace (dev w) ++ new
  /\ (1 <= length (List.filter is_usb_call new) <= 4)%nat
  /\ match fst r with
     | Ok _ =>
         (List.filter is_sleep new = [Sleep 0.05] /\ In (Release true) new
          \/ List.filter is_sleep new = [Sleep 0.5] /\ ~ In (Release true) new)
         /\ is_sleep <$> last new = Some true
     | Raise _ => List.filter is_sleep new = []
     end.
Proof.
  cbv zeta.
  body_cases w g now;
    rewrite <- ?app_assoc; rewrite ?drop_app_length;
    unfold transfer; cbn;
    (split; [reflexivity|]); (split; [lia|]);
    try reflexivity;
    (split; [|reflexivity]);
    first [ left; split; [reflexivity|tauto]
          | right; split; [reflexivity|intuition discriminate] ].
Qed.

(** X8: what an iteration leaves in the loop's own state depends on the
    claim alone.  When the claim returns, the state is the one the engine
    computed (transition reset and wave phase advance included), also
    when a later transfer or the release raises; when the claim raises,
    the state is untouched. *)
Theorem engine_state_follows_claim {F : Type} `{Float64 F}
    (g : settings F) (now : F) (w : world F) :
  st (snd (usb_loop_body g now w))
  = if outcome (dev w) 0 then fst (compute g now (st w)) else st w.
Proof.
  body_cases w g now; reflexivity.
Qed.

(** One iteration, for the two inductions below: what it adds to the
    trace, how many claims returned, and the state it leaves. *)
Lemma body_summary {F : Type} `{Float64 F}
    (g : settings F) (now : F) (w : world F) :
  let w' := snd (usb_loop_body g now w) in
  exists new : list event,
    trace (dev w') = trace (dev w) ++ new
    /\ List.filter is_claim_ok new
       = (if outcome (dev w) 0 then [Claim true] else [])
    /\ st w' = (if outcome (dev w) 0 then fst (compute g now (st w)) else st w).
Proof.
  cbv zeta. exists (events_since (dev w) (dev (snd (usb_loop_body g now w)))).
  body_cases w g now;
    rewrite <- ?app_assoc; rewrite ?drop_app_length;
    unfold transfer; cbn; repeat split.
Qed.

Lemma quiet_outcome (d : device) (i : nat) :
  script d = [] -> outcome d i = true.
Proof. intros Hs. unfold outcome. rewrite Hs. now destruct i. Qed.

Lemma while_running_quiet (ticks : list (settings R * R)) :
  Forall byte_brightness ticks ->
  forall w : world R,
    script (dev w) = [] ->
    fst (while_running ticks w) = Ok tt
    /\ script (dev (snd (while_running ticks w))) = []
    /\ claimed (dev (snd (while_running ticks w)))
       = match ticks with [] => claimed (dev w) | _ => false end.
Proof.
  induction ticks as [|[g now] rest IH]; intros Hall w Hs.
  - cbn. auto.
  - apply Forall_cons in Hall. destruct Hall as [Hg Hrest].
    unfold byte_brightness in Hg. cbn [fst] in Hg.
    destruct (compute_bounded g now (st w)) as (lower & upper & Hc & Hl & Hu);
      [lia|].
    rewrite while_running_cons.
    rewrite (body_completes g now w lower upper Hc ltac:(lia) ltac:(lia))
      by (now apply quiet_outcome).
    rewrite Hs. cbn [drop].
    match goal with |- context [while_running rest ?w1] =>
      destruct (IH Hrest w1 eq_refl) as (Hok & Hscript & Hclaimed) end.
    split; [exact Hok|split; [exact Hscript|]].
    rewrite Hclaimed. now destruct rest.
Qed.

(** X9: over the reals, once the device has stopped failing (no failure
    left in its script), a loop of at least one iteration with
    brightnesses in [0,255] ends with the interface released, also when it
    found the interface claimed, as a failed iteration leaves it. *)
Theorem quiet_device_ends_released
    (ticks : list (settings R * R)) (w : world R) :
  ticks <> [] ->
  script (dev w) = [] ->
  Forall byte_brightness ticks ->
  fst (while_running ticks w) = Ok tt
  /\ claimed (dev (snd (while_running ticks w))) = false
  /\ script (dev (snd (while_running ticks w))) = [].
Proof.
  intros Hne Hs Hall.
  destruct (while_running_quiet ticks Hall w Hs) as (Hok & Hscript & Hclaimed).
  split; [exact Hok|split; [|exact Hscript]].
  rewrite Hclaimed. now destruct ticks.
Qed.

Lemma quiet_device_ends_released_witness :
  let g := {| led_enabled := true; led_mode := "both"; led_effect := "blink";
              brightness_raw := 121; wave_speed := 1%R |} in
  let w := {| st := {| wave_phase := 0%R; last_effect := Some "blink" |};
              dev := {| claimed := true; script := [];
                        trace := [Claim true; Sleep 0.5] |} |} in
  claimed (dev w) = true
  /\ claimed (dev (snd (while_running [(g, 3%R)] w))) = false.
Proof.
  intros g w. split; [reflexivity|].
  assert (Hne : [(g, 3%R)] <> []) by discriminate.
  assert (Hs : script (dev w) = []) by reflexivity.
  assert (Hall : Forall byte_brightness [(g, 3%R)]).
  { repeat constructor; cbn; lia. }
  exact (proj1 (proj2 (quiet_device_ends_released [(g, 3%R)] w Hne Hs Hall))).
Defined.

Lemma compute_wave_step {F : Type} `{Float64 F}
    (g : settings F) (t : F) (a : anim F) :
  last_effect a = Some "wave" ->
  led_enabled g = true -> led_effect g = "wave" ->
  fst (compute g t a)
  = {| wave_phase := (wave_phase a + f_lit 0.05 * wave_speed g)%f64;
       last_effect := Some "wave" |}.
Proof.
  intros Hlast Hon Hw. unfold compute, detect_transition.
  rewrite Hw, (proj2 (effect_changed_false "wave" (last_effect a)) Hlast).
  rewrite intensities_wave by assumption. cbn [fst]. now rewrite Hlast.
Qed.

Lemma wave_run (mode : string) (b : Z) (speed : R) (clocks : list R) :
  0 <= b < 256 ->
  let g := {| led_enabled := true; led_mode := mode; led_effect := "wave";
              brightness_raw := b; wave_speed := speed |} in
  forall w : world R,
    last_effect (st w) = Some "wave" ->
    let r := while_running (map (fun t => (g, t)) clocks) w in
    fst r = Ok tt
    /\ last_effect (st (snd r)) = Some "wave"
    /\ exists new : list event,
         trace (dev (snd r)) = trace (dev w) ++ new
         /\ (wave_phase (st (snd r))
             = wave_phase (st w) + IZR (claims_returned new) * (0.05 * speed))%R.
Proof.
  intros Hb g. induction clocks as [|t rest IH]; intros w Hlast.
  - cbn. split; [reflexivity|split; [exact Hlast|]].
    exists []. split; [now rewrite app_nil_r|].
    unfold claims_returned. cbn [List.filter length].
    change (Z.of_nat 0) with 0. lra.
  - cbn [map]. cbv zeta. rewrite while_running_cons.
    destruct (compute_bounded g t (st w)) as (lower & upper & Hc & Hl & Hu);
      [cbn; lia|].
    cbn [brightness_raw g] in Hl, Hu.
    pose proof (body_returns g t w lower upper Hc ltac:(lia) ltac:(lia)) as Hret.
    destruct (body_summary g t w) as (new1 & Htrace1 & Hclaims1 & Hst1).
    destruct (usb_loop_body g t w) as [[[]|e] w1]; cbn [fst snd] in *;
      [|discriminate].
    assert (Hlast1 : last_effect (st w1) = Some "wave").
    { rewrite Hst1. destruct (outcome (dev w) 0); [|exact Hlast].
      now rewrite compute_wave_step. }
    destruct (IH w1 Hlast1) as (Hok & Hlast2 & new2 & Htrace2 & Hphase2).
    split; [exact Hok|split; [exact Hlast2|]].
    exists (new1 ++ new2). split.
    + rewrite Htrace2, Htrace1. now rewrite app_assoc.
    + rewrite Hphase2. unfold claims_returned.
      rewrite List.filter_app, length_app, Nat2Z.inj_add, plus_IZR, Hclaims1.
      rewrite Hst1. destruct (outcome (dev w) 0).
      * rewrite compute_wave_step by (assumption || reflexivity).
        cbn [wave_phase length wave_speed g f_add f_mul f_lit Float64_R].
        change (Z.of_nat 1) with 1. lra.
      * cbn [length]. change (Z.of_nat 0) with 0. lra.
Qed.

Lemma quiet_claims_count (mode : string) (b : Z) (speed : R) (clocks : list R) :
  0 <= b < 256 ->
  let g := {| led_enabled := true; led_mode := mode; led_effect := "wave";
              brightness_raw := b; wave_speed := speed |} in
  forall w : world R,
    last_effect (st w) = Some "wave" ->
    script (dev w) = [] ->
    claims_returned
      (events_since (dev w)
         (dev (snd (while_running (map (fun t => (g, t)) clocks) w))))
    = Z.of_nat (length clocks).
Proof.
  intros Hb g.
  induction clocks as [|t rest IH]; intros w Hlast Hquiet.
  - cbn. unfold events_since. now rewrite drop_all.
  - cbn [map]. rewrite while_running_cons.
    destruct (compute_bounded g t (st w)) as (lower & upper & Hc & Hl & Hu);
      [cbn; lia|].
    cbn [brightness_raw g] in Hl, Hu.
    rewrite (body_completes g t w lower upper Hc ltac:(lia) ltac:(lia))
      by (now apply quiet_outcome).
    rewrite Hquiet. cbn [drop].
    match goal with |- context [while_running _ ?w1] => set (w1' := w1) end.
    assert (Hlast1 : last_effect (st w1') = Some "wave").
    { subst w1'. cbn [st]. now rewrite compute_wave_step. }
    specialize (IH w1' Hlast1 eq_refl).
    destruct (wave_run mode b speed rest Hb w1' Hlast1)
      as (_ & _ & new2 & Htrace2 & _).
    fold g in Htrace2.
    unfold events_since in IH |- *. rewrite Htrace2 in IH |- *.
    rewrite drop_app_length in IH.
    subst w1'. cbn [dev trace] in Htrace2 |- *.
    rewrite <- app_assoc, drop_app_length.
    unfold claims_returned in IH |- *.
    rewrite List.filter_app, length_app, Nat2Z.inj_add, IH.
    unfold transfer. cbn [List.filter is_claim_ok length]. lia.
Qed.

(** X10: over the reals, while the effect stays wave with the LEDs
    enabled and a brightness in [0,255], the phase after any number of
    iterations is the phase before plus 0.05 * waveSpeed for every
    iteration whose claim returned: iterations whose transfer or release
    failed count, iterations whose claim failed do not, and the clock
    values play no part.  On a device that does not fail that is once
    per iteration. *)
Theorem wave_phase_counts_claims
    (mode : string) (b : Z) (speed : R) (clocks : list R) (w : world R) :
  0 <= b < 256 ->
  last_effect (st w) = Some "wave" ->
  let g := {| led_enabled := true; led_mode := mode; led_effect := "wave";
              brightness_raw := b; wave_speed := speed |} in
  let r := while_running (map (fun t => (g, t)) clocks) w in
  fst r = Ok tt
  /\ (wave_phase (st (snd r))
      = wave_phase (st w)
        + IZR (claims_returned (events_since (dev w) (dev (snd r))))
          * (0.05 * speed))%R
  /\ (script (dev w) = [] ->
      claims_returned (events_since (dev w) (dev (snd r)))
      = Z.of_nat (length clocks)).
Proof.
  intros Hb Hlast g r.
  destruct (wave_run mode b speed clocks Hb w Hlast)
    as (Hok & _ & new & Htrace & Hphase).
  fold g in Hok, Htrace, Hphase. fold r in Hok, Htrace, Hphase.
  assert (Hnew : events_since (dev w) (dev (snd r)) = new).
  { unfold events_since. rewrite Htrace. apply drop_app_length. }
  split; [exact Hok|split; [rewrite Hnew; exact Hphase|]].
  intros Hquiet. now apply quiet_claims_count.
Qed.

Lemma wave_phase_counts_claims_witness :
  let g := {| led_enabled := true; led_mode := "top"; led_effect := "wave";
              brightness_raw := 121; wave_speed := 1%R |} in
  let w := {| st := {| wave_phase := 0%R; last_effect := Some "wave" |};
              dev := {| claimed := false; script := [false; true; false];
                        trace := [] |} |} in
  0 <= 121 < 256
  /\ fst (while_running (map (fun t => (g, t)) [7%R; 7%R; 9%R]) w) = Ok tt.
Proof.
  intros g w.
  assert (Hb : 0 <= 121 < 256) by lia.
  assert (Hlast : last_effect (st w) = Some "wave") by reflexivity.
  split; [exact Hb|].
  exact (proj1 (wave_phase_counts_claims "top" 121 1%R [7%R; 7%R; 9%R] w
                  Hb Hlast)).
Defined.

(** ** Before the loop (lines 33-44) *)

(** X11: the first lines of [usb_loop].  When the device is not found the
    function prints its message and touches neither the device nor the
    driver.  When it is found, the driver is queried once and detached
    only if the query returned and found it active; whatever these two
    calls do (return or raise [USBError]) nothing is printed and the loop
    runs as it would on the same device past those one or two calls: a
    failed detach is not fatal. *)
Theorem startup_is_best_effort {F : Type} `{Float64 F}
    (h : host) (ticks : list (settings F * F)) (d : device) :
  usb_loop_from_start false h ticks d
  = ({| kernel_driver := kernel_driver h; driver_calls := driver_calls h;
        stdout := stdout h ++ ["QuadCast 2 not found."] |},
     (Ok tt, {| st := {| wave_phase := f_lit 0; last_effect := None |};
                dev := d |}))
  /\ (let calls := if outcome d 0 && kernel_driver h then 2%nat else 1%nat in
      let r := usb_loop_from_start true h ticks d in
      snd r
      = usb_loop true ticks
          {| claimed := claimed d; script := drop calls (script d);
             trace := trace d |}
      /\ stdout (fst r) = stdout h
      /\ length (driver_calls (fst r)) = (length (driver_calls h) + calls)%nat
      /\ kernel_driver (fst r)
         = kernel_driver h && negb (outcome d 0 && outcome d 1)).
Proof.
  split; [reflexivity|].
  cbv zeta. unfold usb_loop_from_start, detach_if_active, next_outcome, outcome.
  destruct d as [c s tr], h as [k calls out]. cbn [script claimed trace kernel_driver driver_calls stdout].
  destruct s as [|[] [|[] s]], k; cbn;
    rewrite ?length_app; cbn; repeat split; lia.
Qed.

(** ** From the sliders to the wire *)

(** X12: with the LEDs enabled and the static effect, after the
    brightness slider is moved to any position 0..100 a completed
    iteration sends the brightness command with int(value*242/100) in the
    zone or zones of the mode and 0 in the other, and then the heartbeat
    command, whose level is that same value in each of the three modes,
    also when one zone is off. *)
Theorem slider_reaches_the_wire {F : Type} `{Float64 F}
    (value : Z) (g : settings F) (now : F) (w : world F) :
  0 <= value <= 100 ->
  led_enabled g = true -> led_effect g = "static" ->
  outcome (dev w) 0 = true -> outcome (dev w) 1 = true ->
  outcome (dev w) 2 = true -> outcome (dev w) 3 = true ->
  let g' := QuadCastApp.change_brightness value g in
  let b := change_brightness value in
  let sent lower upper :=
    events_since (dev w) (dev (snd (usb_loop_body g' now w)))
    = [Claim true; transfer (spec_brightness_frame lower upper) true;
       transfer (spec_heartbeat_frame b) true; Release true; Sleep 0.05] in
  (led_mode g = "bottom" -> sent b 0)
  /\ (led_mode g = "top" -> sent 0 b)
  /\ (led_mode g = "both" -> sent b b).
Proof.
  intros Hv Hon Hstatic H0 H1 H2 H3 g' b sent.
  pose proof (change_brightness_range value Hv) as Hb. fold b in Hb.
  assert (Hrun : forall lower upper,
            zone_base g' = (lower, upper) ->
            0 <= lower <= b -> 0 <= upper <= b -> Z.max lower upper = b ->
            sent lower upper).
  { intros lower upper Hz Hl Hu Hmax. unfold sent.
    assert (Hc : snd (compute g' now (st w)) = Ok (lower, upper)).
    { unfold compute.
      rewrite intensities_static
        by (cbn; rewrite ?Hon, ?Hstatic; first [reflexivity|discriminate]).
      cbn [snd]. now rewrite Hz. }
    rewrite (body_completes g' now w lower upper Hc ltac:(lia) ltac:(lia)
               H0 H1 H2 H3).
    unfold events_since. cbn [snd dev trace].
    rewrite drop_app_length. now rewrite Hmax. }
  split; [|split]; intros Hmode; apply Hrun;
    try (unfold zone_base; cbn [led_mode brightness_raw g' QuadCastApp.change_brightness];
         rewrite Hmode; reflexivity);
    lia.
Qed.

Lemma slider_reaches_the_wire_witness :
  let g := {| led_enabled := true; led_mode := "top"; led_effect := "static";
              brightness_raw := 24; wave_speed := 1%R |} in
  let w := {| st := {| wave_phase := 0%R; last_effect := None |};
              dev := {| claimed := false; script := []; trace := [] |} |} in
  0 <= 50 <= 100
  /\ events_since (dev w)
       (dev (snd (usb_loop_body (QuadCastApp.change_brightness 50 g) 0%R w)))
     = [Claim true; transfer (spec_brightness_frame 0 121) true;
        transfer (spec_heartbeat_frame 121) true; Release true; Sleep 0.05].
Proof.
  intros g w.
  assert (Hv : 0 <= 50 <= 100) by lia.
  assert (Hok : forall i, outcome (dev w) i = true) by (now intros [|[|i]]).
  split; [exact Hv|].
  exact (proj1 (proj2 (slider_reaches_the_wire 50 g 0%R w Hv eq_refl eq_refl
                         (Hok 0%nat) (Hok 1%nat) (Hok 2%nat) (Hok 3%nat)))
           eq_refl).
Defined.

(** ** What the GUI can write (lines 126-185) *)

Lemma deliver_in_ui_range {F : Type} `{Float64 F} (g : settings F) (s : signal) :
  emitted s = true -> in_ui_range g -> in_ui_range (deliver g s).
Proof.
  intros Hs (Hb & Hm & He). unfold in_ui_range, known_mode, known_effect.
  destruct s as [value|text|text|value|checked]; cbn in *.
  - split; [|tauto]. apply change_brightness_range.
    apply andb_true_iff in Hs. destruct Hs as [Hlo Hhi].
    apply Z.leb_le in Hlo, Hhi. lia.
  - split; [exact Hb|split; [|exact He]].
    rewrite !orb_true_iff, !String.eqb_eq in Hs. tauto.
  - split; [exact Hb|split; [exact Hm|]].
    rewrite !orb_true_iff, !String.eqb_eq in Hs. tauto.
  - tauto.
  - tauto.
Qed.

Lemma deliver_speed_in_range (g : settings R) (s : signal) :
  emitted s = true -> speed_in_range g -> speed_in_range (deliver g s).
Proof.
  intros Hs Hg. unfold speed_in_range in *.
  destruct s as [value|text|text|value|checked]; cbn [deliver]; try exact Hg.
  cbn in Hs. apply andb_true_iff in Hs. destruct Hs as [Hlo Hhi].
  apply Z.leb_le in Hlo, Hhi.
  cbn [QuadCastApp.change_wave wave_speed].
  unfold change_wave. cbn [f_div f_of_int Float64_R].
  apply IZR_le in Hlo, Hhi. lra.
Qed.

Lemma fold_deliver_invariant {F : Type} `{Float64 F}
    (P : settings F -> Prop) (signals : list signal) :
  (forall g s, emitted s = true -> P g -> P (deliver g s)) ->
  forallb emitted signals = true ->
  forall g : settings F, P g -> P (fold_left deliver signals g).
Proof.
  intros Hstep. induction signals as [|s rest IH]; intros Hall g Hg.
  - exact Hg.
  - cbn in Hall. apply andb_true_iff in Hall. destruct Hall as [Hs Hrest].
    cbn [fold_left]. apply IH; [exact Hrest|]. now apply Hstep.
Qed.

(** X13: whatever the user does with the sliders, the combo boxes and the
    button, in any order and any number of times, the settings the loop
    reads keep a brightness in [0,242], a zone mode among bottom, top and
    both, and an effect among static, blink and wave, in every arithmetic;
    over the reals the wave speed stays between 0.1 and 5. *)
Theorem gui_keeps_settings_in_range :
  (forall (F : Type) (ops : Float64 F) (signals : list signal),
      forallb emitted signals = true ->
      let g := fold_left deliver signals initial_settings in
      0 <= brightness_raw g <= 242
      /\ known_mode (led_mode g) /\ known_effect (led_effect g))
  /\ (forall signals : list signal,
        forallb emitted signals = true ->
        let g : settings R := fold_left deliver signals initial_settings in
        (1 / 10 <= wave_speed g <= 5)%R
        /\ forall (t : R) (a : anim R),
             exists lower upper : Z,
               snd (compute g t a) = Ok (lower, upper)
               /\ 0 <= lower <= 242 /\ 0 <= upper <= 242).
Proof.
  split.
  - intros F ops signals Hall g.
    apply (fold_deliver_invariant in_ui_range signals); try assumption.
    + intros g0 s. apply deliver_in_ui_range.
    + unfold in_ui_range, known_mode, known_effect. cbn. split; [lia|tauto].
  - intros signals Hall g.
    assert (Hspeed : speed_in_range g).
    { apply (fold_deliver_invariant speed_in_range signals); try assumption.
      - intros g0 s. apply deliver_speed_in_range.
      - unfold speed_in_range. cbn. unfold Q2R. cbn. lra. }
    assert (Hrange : in_ui_range g).
    { apply (fold_deliver_invariant in_ui_range signals); try assumption.
      - intros g0 s. apply deliver_in_ui_range.
      - unfold in_ui_range, known_mode, known_effect. cbn. split; [lia|tauto]. }
    split; [exact Hspeed|].
    intros t a. destruct Hrange as (Hb & _).
    destruct (compute_bounded g t a) as (lower & upper & Hc & Hl & Hu); [lia|].
    exists lower, upper. split; [exact Hc|]. lia.
Qed.

Lemma gui_keeps_settings_in_range_witness :
  let signals := [BrightnessValueChanged 100; ModeTextChanged "both";
                  EffectTextChanged "wave"; WaveValueChanged 50;
                  ToggleClicked false] in
  forallb emitted signals = true
  /\ 0 <= brightness_raw
            (fold_left deliver signals (initial_settings : settings R)) <= 242.
Proof.
  intros signals.
  assert (Hall : forallb emitted signals = true) by reflexivity.
  split; [exact Hall|].
  exact (proj1 (proj1 gui_keeps_settings_in_range R Float64_R signals Hall)).
Defined.

(** ** The engine between effect changes *)

Lemma detect_transition_settled {F : Type} `{Float64 F}
    (g : settings F) (a : anim F) :
  last_effect a = Some (led_effect g) -> detect_transition g a = a.
Proof.
  intros Hlast. unfold detect_transition.
  now rewrite (proj2 (effect_changed_false _ _) Hlast).
Qed.

(** X14: an iteration that sees the effect of the previous one, with the
    LEDs disabled or an effect other than wave, leaves the engine's state
    (phase and last effect) exactly as it found it, in every arithmetic:
    only a change of effect and the wave branch ever write it. *)
Theorem engine_state_settled {F : Type} `{Float64 F}
    (g : settings F) (t : F) (a : anim F) :
  last_effect a = Some (led_effect g) ->
  led_enabled g = false \/ led_effect g <> "wave" ->
  fst (compute g t a) = a.
Proof.
  intros Hlast Hcase. unfold compute.
  rewrite detect_transition_settled by exact Hlast.
  pose proof (intensities_phase_other g t a Hcase) as Hphase.
  pose proof (intensities_last g t a) as Hl.
  destruct (fst (intensities g t a)) as [p l], a as [p0 l0].
  cbn in Hphase, Hl. now subst.
Qed.

Lemma engine_state_settled_witness :
  let g := {| led_enabled := true; led_mode := "both"; led_effect := "blink";
              brightness_raw := 200; wave_speed := 1%R |} in
  let a := {| wave_phase := 2%R; last_effect := Some "blink" |} in
  last_effect a = Some (led_effect g) /\ fst (compute g 5%R a) = a.
Proof.
  intros g a.
  assert (Hlast : last_effect a = Some (led_effect g)) by reflexivity.
  assert (Hcase : led_enabled g = false \/ led_effect g <> "wave").
  { right. cbn. discriminate. }
  split; [exact Hlast|].
  exact (engine_state_settled g 5%R a Hlast Hcase).
Defined.

(** X15: switching the LEDs off for an iteration and on again does not
    disturb the animation, in every arithmetic: the iteration after the
    button is set again computes exactly what it would have computed had
    the dark iteration not taken place, same intensities and same state;
    the dark iteration itself returns (0, 0). *)
Theorem dark_iteration_is_transparent {F : Type} `{Float64 F}
    (g : settings F) (t1 t2 : F) (a : anim F) :
  let off := QuadCastApp.toggle_led false g in
  let on := QuadCastApp.toggle_led true (fst off) in
  snd off = "LED OFF" /\ snd on = "LED ON"
  /\ snd (compute (fst off) t1 a) = Ok (0, 0)
  /\ compute (fst on) t2 (fst (compute (fst off) t1 a))
     = compute (fst on) t2 a.
Proof.
  cbv zeta. split; [reflexivity|split; [reflexivity|split; [reflexivity|]]].
  unfold compute at 2.
  unfold intensities at 1. cbn [QuadCastApp.toggle_led fst led_enabled].
  unfold compute.
  set (on := {| led_enabled := true; led_mode := led_mode g;
                led_effect := led_effect g; brightness_raw := brightness_raw g;
                wave_speed := wave_speed g |}).
  change (detect_transition _ a) with (detect_transition on a) at 1.
  now rewrite (detect_transition_settled on (detect_transition on a))
    by apply detect_transition_last.
Qed.
